(** * Logger_One: context store, fallback delivery and notification dispatch

    A shallow embedding of [context.py], [fallback/buffer_manager.py],
    [fallback/fallback_handler.py], [fallback/safe_logger.py],
    [notifications/dispatcher.py] and [notifications/retry_policy.py],
    with the properties of the specification stated over it. *)

From stdpp Require Import gmap strings list fin_maps.
From Stdlib Require Import ZArith Ascii.

Local Open Scope string_scope.
Local Open Scope list_scope.
Local Open Scope nat_scope.

(** ** Python values shared by the three packages *)

Module Py.

(** An instance of Python's [Exception]; [exc_str] is what [str(e)] and
    [f"{e}"] print. *)
Record Exception := { exc_str : string }.

(** How a call ends: it returns a value or raises an [Exception]. *)
Inductive outcome (A : Type) : Type :=
| Returned (a : A)
| Raised (e : Exception).
Arguments Returned {A} a.
Arguments Raised {A} e.

Definition raised {A} (o : outcome A) : bool :=
  match o with Returned _ => false | Raised _ => true end.

(** Truth value of an [Optional[str]]: [None] and the empty string are
    falsy. *)
Definition truthy (o : option string) : bool :=
  match o with
  | Some (String _ _) => true
  | Some EmptyString => false
  | None => false
  end.

(** Truth value of a dict: only the empty dict is falsy. *)
Definition dict_truthy {V} (d : gmap string V) : bool :=
  negb (bool_decide (size d = 0)).

End Py.

(** ** context.py *)

Module Context.
Import Py.

Section Store.

(** Values held in the extra fields ([Any] in the source); they are
    treated as immutable. *)
Context {Any : Type}.

(** [uuid4 n] is the text of the [n]-th identifier [uuid.uuid4()] hands
    out in this process. *)
Variable uuid4 : nat → string.

(** The four [ContextVar]s, with their defaults [None] and [{}]. *)
Record ContextVars := {
  correlation_id_ctx : option string;
  transaction_id_ctx : option string;
  user_id_ctx : option string;
  extra_fields_ctx : gmap string Any
}.

(** The attributes of [_thread_local]; [None] is an absent attribute. *)
Record ThreadLocal := {
  tl_correlation_id : option string;
  tl_transaction_id : option string;
  tl_user_id : option string;
  tl_extra_fields : option (gmap string Any)
}.

(** What one thread of control sees of the module's state. *)
Record Store := {
  ctx : ContextVars;
  thread_local : ThreadLocal;
  uuid_calls : nat
}.

Definition initial_store : Store :=
  {| ctx := {| correlation_id_ctx := None; transaction_id_ctx := None;
               user_id_ctx := None; extra_fields_ctx := ∅ |};
     thread_local := {| tl_correlation_id := None; tl_transaction_id := None;
                        tl_user_id := None; tl_extra_fields := None |};
     uuid_calls := 0 |}.

(** Field updates. *)
Definition ctx_set_correlation_id (v : option string) (c : ContextVars) :=
  {| correlation_id_ctx := v; transaction_id_ctx := transaction_id_ctx c;
     user_id_ctx := user_id_ctx c; extra_fields_ctx := extra_fields_ctx c |}.
Definition ctx_set_transaction_id (v : option string) (c : ContextVars) :=
  {| correlation_id_ctx := correlation_id_ctx c; transaction_id_ctx := v;
     user_id_ctx := user_id_ctx c; extra_fields_ctx := extra_fields_ctx c |}.
Definition ctx_set_user_id (v : option string) (c : ContextVars) :=
  {| correlation_id_ctx := correlation_id_ctx c;
     transaction_id_ctx := transaction_id_ctx c;
     user_id_ctx := v; extra_fields_ctx := extra_fields_ctx c |}.
Definition ctx_set_extra_fields (v : gmap string Any) (c : ContextVars) :=
  {| correlation_id_ctx := correlation_id_ctx c;
     transaction_id_ctx := transaction_id_ctx c;
     user_id_ctx := user_id_ctx c; extra_fields_ctx := v |}.

Definition tl_set_correlation_id (v : option string) (t : ThreadLocal) :=
  {| tl_correlation_id := v; tl_transaction_id := tl_transaction_id t;
     tl_user_id := tl_user_id t; tl_extra_fields := tl_extra_fields t |}.
Definition tl_set_transaction_id (v : option string) (t : ThreadLocal) :=
  {| tl_correlation_id := tl_correlation_id t; tl_transaction_id := v;
     tl_user_id := tl_user_id t; tl_extra_fields := tl_extra_fields t |}.
Definition tl_set_user_id (v : option string) (t : ThreadLocal) :=
  {| tl_correlation_id := tl_correlation_id t;
     tl_transaction_id := tl_transaction_id t;
     tl_user_id := v; tl_extra_fields := tl_extra_fields t |}.
Definition tl_set_extra_fields (v : option (gmap string Any)) (t : ThreadLocal) :=
  {| tl_correlation_id := tl_correlation_id t;
     tl_transaction_id := tl_transaction_id t;
     tl_user_id := tl_user_id t; tl_extra_fields := v |}.

Definition update (f : ContextVars → ContextVars) (g : ThreadLocal → ThreadLocal)
    (s : Store) : Store :=
  {| ctx := f (ctx s); thread_local := g (thread_local s);
     uuid_calls := uuid_calls s |}.

(** [generate_correlation_id]: [str(uuid.uuid4())]. *)
Definition generate_correlation_id (s : Store) : string * Store :=
  (uuid4 (uuid_calls s),
   {| ctx := ctx s; thread_local := thread_local s;
      uuid_calls := S (uuid_calls s) |}).

(** [set_correlation_id]: [None] asks for a generated identifier; the
    value goes to both stores and is returned. *)
Definition set_correlation_id (correlation_id : option string) (s : Store)
    : string * Store :=
  let '(cid, s1) :=
    match correlation_id with
    | None => generate_correlation_id s
    | Some c => (c, s)
    end in
  (cid, update (ctx_set_correlation_id (Some cid))
               (tl_set_correlation_id (Some cid)) s1).

(** [get_correlation_id]: the context variable when truthy, otherwise
    [getattr(_thread_local, 'correlation_id', None)]. *)
Definition get_correlation_id (s : Store) : option string :=
  let cid := correlation_id_ctx (ctx s) in
  if truthy cid then cid else tl_correlation_id (thread_local s).

(** [clear_correlation_id]: resets the context variable and deletes the
    attribute when it is there. *)
Definition clear_correlation_id (s : Store) : Store :=
  update (ctx_set_correlation_id None)
         (λ t, match tl_correlation_id t with
               | Some _ => tl_set_correlation_id None t
               | None => t
               end) s.

Definition set_transaction_id (transaction_id : string) (s : Store) : Store :=
  update (ctx_set_transaction_id (Some transaction_id))
         (tl_set_transaction_id (Some transaction_id)) s.

Definition get_transaction_id (s : Store) : option string :=
  let tid := transaction_id_ctx (ctx s) in
  if truthy tid then tid else tl_transaction_id (thread_local s).

Definition clear_transaction_id (s : Store) : Store :=
  update (ctx_set_transaction_id None)
         (λ t, match tl_transaction_id t with
               | Some _ => tl_set_transaction_id None t
               | None => t
               end) s.

Definition set_user_id (user_id : string) (s : Store) : Store :=
  update (ctx_set_user_id (Some user_id)) (tl_set_user_id (Some user_id)) s.

Definition get_user_id (s : Store) : option string :=
  let uid := user_id_ctx (ctx s) in
  if truthy uid then uid else tl_user_id (thread_local s).

Definition clear_user_id (s : Store) : Store :=
  update (ctx_set_user_id None)
         (λ t, match tl_user_id t with
               | Some _ => tl_set_user_id None t
               | None => t
               end) s.

(** [set_extra_field]: copy-then-write on the context variable, in-place
    write on the thread-local dict (created when absent). *)
Definition set_extra_field (key : string) (value : Any) (s : Store) : Store :=
  update (λ c, ctx_set_extra_fields (<[key:=value]> (extra_fields_ctx c)) c)
         (λ t, tl_set_extra_fields
                 (Some (<[key:=value]> (default ∅ (tl_extra_fields t)))) t) s.

(** [get_extra_fields]: a copy of the context variable's dict when it is
    not empty, otherwise of the thread-local one (or [{}]). *)
Definition get_extra_fields (s : Store) : gmap string Any :=
  let ctx_extra := extra_fields_ctx (ctx s) in
  if dict_truthy ctx_extra then ctx_extra
  else default ∅ (tl_extra_fields (thread_local s)).

Definition clear_extra_fields (s : Store) : Store :=
  update (ctx_set_extra_fields ∅)
         (λ t, match tl_extra_fields t with
               | Some _ => tl_set_extra_fields (Some ∅) t
               | None => t
               end) s.

Definition clear_all_context (s : Store) : Store :=
  clear_extra_fields (clear_user_id (clear_transaction_id (clear_correlation_id s))).

(** [for key, value in d.items(): set_extra_field(key, value)]. *)
Definition set_extra_fields_from (d : gmap string Any) (s : Store) : Store :=
  map_fold (λ key value acc, set_extra_field key value acc) s d.

(** The [LoggingContext] object: constructor arguments and the snapshot
    taken on entry ([prev_extra_fields] is [None] until then). *)
Record LoggingContext := {
  correlation_id : option string;
  transaction_id : option string;
  user_id : option string;
  auto_generate_correlation : bool;
  extra_fields : gmap string Any;
  prev_correlation_id : option string;
  prev_transaction_id : option string;
  prev_user_id : option string;
  prev_extra_fields : option (gmap string Any)
}.

(** [LoggingContext.__init__]. *)
Definition new_LoggingContext (correlation_id transaction_id user_id : option string)
    (auto_generate_correlation : bool) (extra_fields : gmap string Any)
    : LoggingContext :=
  {| correlation_id := correlation_id; transaction_id := transaction_id;
     user_id := user_id; auto_generate_correlation := auto_generate_correlation;
     extra_fields := extra_fields;
     prev_correlation_id := None; prev_transaction_id := None;
     prev_user_id := None; prev_extra_fields := None |}.

(** [LoggingContext.__enter__]. *)
Definition __enter__ (self : LoggingContext) (s : Store) : LoggingContext * Store :=
  let self' :=
    {| correlation_id := correlation_id self;
       transaction_id := transaction_id self;
       user_id := user_id self;
       auto_generate_correlation := auto_generate_correlation self;
       extra_fields := extra_fields self;
       prev_correlation_id := get_correlation_id s;
       prev_transaction_id := get_transaction_id s;
       prev_user_id := get_user_id s;
       prev_extra_fields := Some (get_extra_fields s) |} in
  let s1 :=
    if truthy (correlation_id self) || auto_generate_correlation self
    then snd (set_correlation_id (correlation_id self) s) else s in
  let s2 :=
    match transaction_id self with
    | Some t => if truthy (Some t) then set_transaction_id t s1 else s1
    | None => s1
    end in
  let s3 :=
    match user_id self with
    | Some u => if truthy (Some u) then set_user_id u s2 else s2
    | None => s2
    end in
  (self', set_extra_fields_from (extra_fields self) s3).

(** [LoggingContext.__exit__]; it returns [None], so an exception of the
    body keeps propagating. Without a snapshot [None.items()] raises. *)
Definition __exit__ (self : LoggingContext) (s : Store) : outcome unit * Store :=
  let s1 :=
    match prev_correlation_id self with
    | Some c => if truthy (Some c) then snd (set_correlation_id (Some c) s)
                else clear_correlation_id s
    | None => clear_correlation_id s
    end in
  let s2 :=
    match prev_transaction_id self with
    | Some t => if truthy (Some t) then set_transaction_id t s1
                else clear_transaction_id s1
    | None => clear_transaction_id s1
    end in
  let s3 :=
    match prev_user_id self with
    | Some u => if truthy (Some u) then set_user_id u s2 else clear_user_id s2
    | None => clear_user_id s2
    end in
  let s4 := clear_extra_fields s3 in
  match prev_extra_fields self with
  | Some prev => (Returned tt, set_extra_fields_from prev s4)
  | None =>
      (Raised {| exc_str := "'NoneType' object has no attribute 'items'" |}, s4)
  end.

(** [with LoggingContext(...) as lc: body]. The body is any code acting
    on the store; [__exit__] runs whether it returns or raises. *)
Definition with_LoggingContext {R} (self : LoggingContext)
    (body : LoggingContext → Store → outcome R * Store) (s : Store)
    : outcome R * Store :=
  let '(lc, s1) := __enter__ self s in
  let '(r, s2) := body lc s1 in
  let '(x, s3) := __exit__ lc s2 in
  match x with
  | Raised e => (Raised e, s3)
  | Returned _ => (r, s3)
  end.

(** [get_current_context], as a tuple in the order of its keys. *)
Definition get_current_context (s : Store)
    : option string * option string * option string * gmap string Any :=
  (get_correlation_id s, get_transaction_id s, get_user_id s, get_extra_fields s).

(** What [__exit__] puts back for an observed identifier: the value
    itself when truthy, [None] otherwise. *)
Definition restored (o : option string) : option string :=
  if truthy o then o else None.

(** The same on a whole observed context: the map is put back as it
    was. *)
Definition restored_context
    (c : option string * option string * option string * gmap string Any)
    : option string * option string * option string * gmap string Any :=
  let '(cid, tid, uid, extra) := c in
  (restored cid, restored tid, restored uid, extra).

(** [with outer: (with inner: body); rest]: a scope nested in the body
    of another; [rest] is what the outer body does after the inner scope
    has exited. *)
Definition nested_scopes {R Q} (outer inner : LoggingContext)
    (body : LoggingContext → Store → outcome R * Store)
    (rest : outcome R → Store → outcome Q * Store) (s : Store)
    : outcome Q * Store :=
  with_LoggingContext outer
    (λ _ s1, let '(r, s2) := with_LoggingContext inner body s1 in rest r s2) s.

(** The two stores agree: each context variable holds what the
    thread-local attribute holds (an absent attribute counting as [None],
    an absent dict as [{}]). *)
Definition in_sync (s : Store) : Prop :=
  correlation_id_ctx (ctx s) = tl_correlation_id (thread_local s) ∧
  transaction_id_ctx (ctx s) = tl_transaction_id (thread_local s) ∧
  user_id_ctx (ctx s) = tl_user_id (thread_local s) ∧
  extra_fields_ctx (ctx s) = default ∅ (tl_extra_fields (thread_local s)).

(** A context dict as [set_context_from_dict] reads it: a key may be
    missing (outer [None]); an identifier may be [None]; the value under
    'extra_fields' may be something else than a dict (inner [None]). *)
Record ContextDict := {
  d_correlation_id : option (option string);
  d_transaction_id : option (option string);
  d_user_id : option (option string);
  d_extra_fields : option (option (gmap string Any))
}.

(** [copy_context]: [get_current_context().copy()], a dict with the four
    keys. *)
Definition copy_context (s : Store) : ContextDict :=
  let '(cid, tid, uid, extra) := get_current_context s in
  {| d_correlation_id := Some cid; d_transaction_id := Some tid;
     d_user_id := Some uid; d_extra_fields := Some (Some extra) |}.

(** [set_context_from_dict]. *)
Definition set_context_from_dict (context : ContextDict) (s : Store) : Store :=
  let s1 :=
    match d_correlation_id context with
    | Some (Some c) =>
        if truthy (Some c) then snd (set_correlation_id (Some c) s) else s
    | _ => s
    end in
  let s2 :=
    match d_transaction_id context with
    | Some (Some t) => if truthy (Some t) then set_transaction_id t s1 else s1
    | _ => s1
    end in
  let s3 :=
    match d_user_id context with
    | Some (Some u) => if truthy (Some u) then set_user_id u s2 else s2
    | _ => s2
    end in
  match d_extra_fields context with
  | Some (Some extra) => set_extra_fields_from extra s3
  | _ => s3
  end.

(** The correlation id a scope sets on entry, given the one observed
    before: the given one when truthy, or when auto-generation is on and
    it is not [None]; a generated one when none is given and
    auto-generation is on; otherwise the one before. *)
Definition entered_correlation_id (self : LoggingContext) (s : Store)
    : option string :=
  match correlation_id self with
  | Some c =>
      if truthy (Some c) || auto_generate_correlation self then Some c
      else get_correlation_id s
  | None =>
      if auto_generate_correlation self then Some (uuid4 (uuid_calls s))
      else get_correlation_id s
  end.

End Store.

(** A store in which [set_correlation_id("")] has been called, for the
    examples below. *)
Definition store_with_empty_correlation_id : Store (Any:=string) :=
  snd (set_correlation_id (λ _, "3f2b8c1e-5d4a-4e6f-9a7b-0c1d2e3f4a5b") (Some "")
         initial_store).

End Context.

(** ** fallback/buffer_manager.py, fallback_handler.py, safe_logger.py *)

Module Fallback.
Import Py.

(** [BufferManager]: the capacity is a number of messages; the lock makes
    each method one atomic step, which is how the methods are written
    here. *)
Record BufferManager := {
  capacity : nat;
  buffer : list string
}.

(** [BufferManager.__init__]. *)
Definition new_BufferManager (capacity : nat) : BufferManager :=
  {| capacity := capacity; buffer := [] |}.

(** [BufferManager.add]: append, then [pop(0)] when the length exceeds
    the capacity. *)
Definition add (message : string) (self : BufferManager) : BufferManager :=
  let appended := buffer self ++ [message] in
  {| capacity := capacity self;
     buffer := if capacity self <? length appended then tail appended
               else appended |}.

(** A sequence of [add] calls, oldest first. *)
Definition add_all (messages : list string) (self : BufferManager)
    : BufferManager :=
  foldl (λ b m, add m b) self messages.

Section Collaborators.

(** State of whatever the callbacks and the primary logger act on. *)
Context {W : Type}.

(** [time.strftime("%Y-%m-%d %H:%M:%S")] read from that state. *)
Variable strftime : W → string.

(** The loop of [flush] over the snapshot [list(self.buffer)]: the
    callback is called on each message until one raises. The first
    component lists the calls made, in order, with how each ended. *)
Fixpoint flush_loop (target_callback : string → W → outcome unit * W)
    (snapshot : list string) (w : W) : list (string * outcome unit) * W :=
  match snapshot with
  | [] => ([], w)
  | msg :: rest =>
      match target_callback msg w with
      | (Returned u, w1) =>
          let '(calls, w2) := flush_loop target_callback rest w1 in
          ((msg, Returned u) :: calls, w2)
      | (Raised e, w1) => ([(msg, Raised e)], w1)
      end
  end.

(** [BufferManager.flush]: the loop, then [self.buffer.clear()]. *)
Definition flush (target_callback : string → W → outcome unit * W)
    (self : BufferManager) (w : W)
    : BufferManager * list (string * outcome unit) * W :=
  let '(calls, w1) := flush_loop target_callback (buffer self) w in
  ({| capacity := capacity self; buffer := [] |}, calls, w1).

(** [FallbackHandler]: [queue] holds the records put and not yet taken
    by the worker thread. *)
Record FallbackHandler := {
  mode : string;
  backup_file : string;
  queue : list string;
  flush_interval : Z
}.

(** [FallbackHandler.__init__]. *)
Definition new_FallbackHandler (mode backup_file : string) (flush_interval : Z)
    : FallbackHandler :=
  {| mode := mode; backup_file := backup_file; queue := [];
     flush_interval := flush_interval |}.

(** [FallbackHandler.emit]: timestamp the record and put it on the
    queue. *)
Definition emit (record : string) (self : FallbackHandler) (w : W)
    : FallbackHandler :=
  let timestamp := strftime w in
  {| mode := mode self; backup_file := backup_file self;
     queue := queue self ++ ["[" +:+ timestamp +:+ "] " +:+ record];
     flush_interval := flush_interval self |}.

(** [SafeLogger]: the wrapped logger is the collaborator [main_logger],
    whose [log] acts on [W] and may raise. *)
Record SafeLogger := {
  main_logger : string → string → W → outcome unit * W;
  fallback : FallbackHandler;
  sl_buffer : BufferManager
}.

(** [SafeLogger.__init__]. *)
Definition new_SafeLogger (main_logger : string → string → W → outcome unit * W)
    (fallback_mode : string) : SafeLogger :=
  {| main_logger := main_logger;
     fallback := new_FallbackHandler fallback_mode "fallback.log" 5;
     sl_buffer := new_BufferManager 500 |}.

(** The record [SafeLogger.log] hands to the fallback handler. *)
Definition main_logger_error (e : Exception) (msg : string) : string :=
  "[MAIN LOGGER ERROR: " +:+ exc_str e +:+ "] " +:+ msg.

(** [SafeLogger.log]: [try: main_logger.log(level, msg)], and on an
    exception buffer the message and emit it to the fallback. *)
Definition log (level msg : string) (self : SafeLogger) (w : W)
    : outcome unit * SafeLogger * W :=
  match main_logger self level msg w with
  | (Returned _, w1) => (Returned tt, self, w1)
  | (Raised e, w1) =>
      (Returned tt,
       {| main_logger := main_logger self;
          fallback := emit (main_logger_error e msg) (fallback self) w1;
          sl_buffer := add msg (sl_buffer self) |},
       w1)
  end.

(** [SafeLogger.recover]: flush the buffer into the primary logger at
    INFO level and emit the completion marker; [flush] absorbs the
    exceptions of its callback, so the [except] branch is never taken. *)
Definition recover (self : SafeLogger) (w : W) : outcome unit * SafeLogger * W :=
  let '(b, _, w1) :=
    flush (λ m, main_logger self "INFO" m) (sl_buffer self) w in
  (Returned tt,
   {| main_logger := main_logger self;
      fallback := emit "✅ Recovery complete — all buffered logs flushed."
                       (fallback self) w1;
      sl_buffer := b |},
   w1).

(** A call of the callback that returned. *)
Definition returned_call (c : string * outcome unit) : Prop :=
  raised (snd c) = false.

(** [called cb calls w w']: from [w], the callback was applied to the
    listed messages in turn, each application ending as listed and the
    next one starting where that left off; [w'] is where the last one
    left off. *)
Fixpoint called (cb : string → W → outcome unit * W)
    (calls : list (string * outcome unit)) (w w' : W) : Prop :=
  match calls with
  | [] => w' = w
  | (m, o) :: rest => ∃ w1, cb m w = (o, w1) ∧ called cb rest w1 w'
  end.

(** A sequence of [SafeLogger.log] calls, given as (level, message)
    pairs. *)
Fixpoint log_all (entries : list (string * string)) (self : SafeLogger) (w : W)
    : SafeLogger * W :=
  match entries with
  | [] => (self, w)
  | (level, msg) :: rest =>
      let '(_, self1, w1) := log level msg self w in
      log_all rest self1 w1
  end.

(** The callback [recover] gives to [flush]. *)
Definition resubmit (self : SafeLogger) (m : string) (w : W) : outcome unit * W :=
  main_logger self "INFO" m w.

End Collaborators.

(** [os.path.dirname] on POSIX paths: the part up to the last "/",
    without trailing slashes unless it consists of slashes only. *)
Definition is_sep (c : Ascii.ascii) : bool := Ascii.eqb c "/"%char.

Fixpoint has_sep (p : string) : bool :=
  match p with
  | EmptyString => false
  | String c r => is_sep c || has_sep r
  end.

(** [p[:p.rfind("/") + 1]]. *)
Fixpoint up_to_last_sep (p : string) : string :=
  match p with
  | EmptyString => EmptyString
  | String c r =>
      if is_sep c || has_sep r then String c (up_to_last_sep r)
      else EmptyString
  end.

Fixpoint all_seps (p : string) : bool :=
  match p with
  | EmptyString => true
  | String c r => is_sep c && all_seps r
  end.

(** [head.rstrip("/")]. *)
Fixpoint rstrip_sep (p : string) : string :=
  match p with
  | EmptyString => EmptyString
  | String c r => if all_seps (String c r) then EmptyString
                  else String c (rstrip_sep r)
  end.

Definition dirname (p : string) : string :=
  let head := up_to_last_sep p in
  if negb (String.eqb head "") && negb (all_seps head) then rstrip_sep head
  else head.

Definition newline : string := String "010"%char EmptyString.

(** [threading.TIMEOUT_MAX] where the lock timeout is kept in
    nanoseconds in a signed 64-bit integer. *)
Definition TIMEOUT_MAX : Z := 9223372036.

Section Sink.

(** State of the process's output streams and file system. *)
Context {W : Type}.

(** [print(msg, flush=True)], [os.makedirs(path, exist_ok=True)], the
    [with open(path, "a") as f: f.write(text)] block and
    [sys.stderr.write(text)], as the operating system performs them. *)
Variable print : string → W → outcome unit * W.
Variable makedirs : string → W → outcome unit * W.
Variable append_to_file : string → string → W → outcome unit * W.
Variable stderr_write : string → W → W.

Definition with_queue (q : list string) (self : FallbackHandler)
    : FallbackHandler :=
  {| mode := mode self; backup_file := backup_file self; queue := q;
     flush_interval := flush_interval self |}.

(** [FallbackHandler._write]. *)
Definition _write (msg : string) (self : FallbackHandler) (w : W)
    : outcome unit * W :=
  if String.eqb (mode self) "stdout" then print msg w
  else
    match makedirs (dirname (backup_file self)) w with
    | (Raised e, w1) => (Raised e, w1)
    | (Returned _, w1) => append_to_file (backup_file self) (msg +:+ newline) w1
    end.

(** How [queue.get(timeout=...)] ends when no other thread puts a
    record meanwhile. *)
Inductive get_result :=
| Item (message : string) (rest : list string)
| QueueEmpty
| GetRaised (e : Exception).

(** [Queue.get(timeout=timeout)]: a negative timeout raises
    [ValueError] whatever the queue holds; otherwise the oldest record
    is taken; on an empty queue the wait is bounded by the timeout and
    ends in [Empty] ([QueueEmpty]), unless the timeout is more than the
    lock takes
    ([threading.TIMEOUT_MAX], [OverflowError]). *)
Definition queue_get (timeout : Z) (q : list string) : get_result :=
  if (timeout <? 0)%Z then
    GetRaised {| exc_str := "'timeout' must be a non-negative number" |}
  else
    match q with
    | message :: rest => Item message rest
    | [] =>
        if (TIMEOUT_MAX <? timeout)%Z then
          GetRaised {| exc_str := "timeout value is too large" |}
        else QueueEmpty
    end.

(** One turn of the [while] loop of [FallbackHandler._worker]: [Empty]
    is skipped ([continue]); a record taken is written; any other
    exception, of [get] or of the write, is reported on the error
    stream. *)
Definition _worker_iteration (self : FallbackHandler) (w : W)
    : FallbackHandler * W :=
  match queue_get (flush_interval self) (queue self) with
  | QueueEmpty => (self, w)
  | GetRaised e =>
      (self, stderr_write ("[FALLBACK ERROR] " +:+ exc_str e +:+ newline) w)
  | Item message rest =>
      match _write message self w with
      | (Returned _, w1) => (with_queue rest self, w1)
      | (Raised e, w1) =>
          (with_queue rest self,
           stderr_write ("[FALLBACK ERROR] " +:+ exc_str e +:+ newline) w1)
      end
  end.

(** [n] turns of that loop. *)
Fixpoint _worker (n : nat) (self : FallbackHandler) (w : W)
    : FallbackHandler * W :=
  match n with
  | 0 => (self, w)
  | S k => let '(self1, w1) := _worker_iteration self w in _worker k self1 w1
  end.

(** The [while not self.queue.empty()] loop of [stop], on the records
    left in the queue; it gives back the records not taken. *)
Fixpoint drain (messages : list string) (self : FallbackHandler) (w : W)
    : outcome unit * list string * W :=
  match messages with
  | [] => (Returned tt, [], w)
  | message :: rest =>
      match _write message self w with
      | (Returned _, w1) => drain rest self w1
      | (Raised e, w1) => (Raised e, rest, w1)
      end
  end.

(** [FallbackHandler.stop], once the worker thread has ended. *)
Definition stop (self : FallbackHandler) (w : W)
    : outcome unit * FallbackHandler * W :=
  let '(r, remaining, w1) := drain (queue self) self w in
  (r, with_queue remaining self, w1).

End Sink.

(** Primary loggers for the examples below: one whose [log] always
    raises, one that appends the message to a list. *)
Definition broken_logger (level msg : string) (w : list string)
    : outcome unit * list string :=
  (Raised {| exc_str := "disk full" |}, w).

Definition list_logger (level msg : string) (w : list string)
    : outcome unit * list string :=
  (Returned tt, w ++ [level +:+ " " +:+ msg]).

Definition fixed_clock (w : list string) : string := "2024-01-01 00:00:00".

(** An operating system for the examples below: the state lists what
    was written, and [os.makedirs("")] raises as CPython's does. *)
Definition example_print (msg : string) (w : list string)
    : outcome unit * list string :=
  (Returned tt, w ++ ["stdout: " +:+ msg]).

Definition no_such_directory : Exception :=
  {| exc_str := "[Errno 2] No such file or directory: ''" |}.

Definition example_makedirs (path : string) (w : list string)
    : outcome unit * list string :=
  if String.eqb path "" then (Raised no_such_directory, w)
  else (Returned tt, w).

Definition example_append (path text : string) (w : list string)
    : outcome unit * list string :=
  (Returned tt, w ++ [path +:+ ": " +:+ text]).

Definition example_stderr (text : string) (w : list string) : list string :=
  w ++ ["stderr: " +:+ text].

(** A safe logger whose primary logger works again, with two messages
    buffered while it did not. *)
Definition recovering_logger : SafeLogger :=
  {| main_logger := list_logger;
     fallback := new_FallbackHandler "stdout" "fallback.log" 5;
     sl_buffer := {| capacity := 500; buffer := ["m1"; "m2"] |} |}.

(** A safe logger after two messages were logged while the primary
    logger raised. *)
Definition failing_logger : SafeLogger :=
  fst (log_all fixed_clock [("ERROR", "m1"); ("WARN", "m2")]
         (new_SafeLogger broken_logger "stdout") []).

(** Handlers with two records queued: one in "stdout" mode, and the one
    of a safe logger built with fallback mode "file". *)
Definition stdout_handler : FallbackHandler :=
  emit fixed_clock "b"
    (emit fixed_clock "a" (new_FallbackHandler "stdout" "fallback.log" 5) [])
    [].

Definition file_handler : FallbackHandler :=
  emit fixed_clock "b"
    (emit fixed_clock "a" (fallback (new_SafeLogger broken_logger "file")) [])
    [].

End Fallback.

(** ** notifications/models.py, dispatcher.py, retry_policy.py *)

Module Notifications.
Import Py.

(** [NotificationMessage] (a dataclass). *)
Record NotificationMessage := {
  id : string;
  level : string;
  title : string;
  text : string;
  correlation_id : option string;
  timestamp : Z;
  metadata : gmap string string
}.

(** A keyword argument of a log call. *)
Inductive field :=
| FStr (s : string)
| FInt (n : Z).

(** What the dispatcher and the retry policy do to the outside, in the
    order they do it: log calls, [time.sleep], [send] on a channel with
    the value it returned, and the calls [with_retry] makes to the
    function it wraps with the value that came back. *)
Inductive event :=
| Log (component severity message : string) (fields : list (string * field))
| Sleep (seconds : Z)
| Send (channel : string) (message : NotificationMessage) (ok : bool)
| Call (attempt : Z) (success : bool).

Section Channels.

(** State of whatever the channels act on (mail server, HTTP endpoint). *)
Context {W : Type}.

Record World := {
  ext : W;
  trace : list event
}.

Definition record_event (e : event) (w : World) : World :=
  {| ext := ext w; trace := trace w ++ [e] |}.

(** Modelled from the spec: the [logger] package the two modules import
    [StructuredLogger] from is not among the sources; a call to [info],
    [warn] or [error] of a logger built for [component] logs one record
    and returns. *)
Definition logger_call (component severity message : string)
    (fields : list (string * field)) (w : World) : World :=
  record_event (Log component severity message fields) w.

(** The largest whole number of seconds [time.sleep] takes: CPython
    converts the delay to nanoseconds in a signed 64-bit integer. *)
Definition SLEEP_MAX : Z := 9223372036.

(** [time.sleep(delay)]: [OverflowError] when the delay does not fit
    that integer, [ValueError] when it is negative; otherwise the thread
    sleeps for the delay. *)
Definition sleep (delay : Z) (w : World) : outcome unit * World :=
  if ((delay <? - SLEEP_MAX) || (SLEEP_MAX <? delay))%Z then
    (Raised {| exc_str := "timestamp too large to convert to C _PyTime_t" |}, w)
  else if (delay <? 0)%Z then
    (Raised {| exc_str := "sleep length must be non-negative" |}, w)
  else (Returned tt, record_event (Sleep delay) w).

(** A channel: [str(channel)] and its [send], which returns a bool and
    by contract does not raise. *)
Record Channel := {
  channel_str : string;
  send : NotificationMessage → W → bool * W
}.

Record NotificationDispatcher := {
  channels : gmap string (list Channel)
}.

(** [NotificationDispatcher.__init__]. *)
Definition new_NotificationDispatcher : NotificationDispatcher :=
  {| channels :=
       <["INFO" := []]> (<["WARN" := []]> (<["ALERT" := []]>
         (<["ERROR" := []]> ∅))) |}.

(** [NotificationDispatcher.register_channel]; [self.channels[level]]
    would raise [KeyError] on a missing key. *)
Definition register_channel (level : string) (channel : Channel)
    (self : NotificationDispatcher) (w : World)
    : outcome unit * NotificationDispatcher * World :=
  let chs :=
    match channels self !! level with
    | None => <[level := []]> (channels self)
    | Some _ => channels self
    end in
  match chs !! level with
  | None => (Raised {| exc_str := level |}, {| channels := chs |}, w)
  | Some l =>
      (Returned tt,
       {| channels := <[level := l ++ [channel]]> chs |},
       logger_call "notifications.dispatcher" "INFO"
         ("Channel registered for level=" +:+ level)
         [("channel", FStr (channel_str channel))] w)
  end.

(** The [for ch in targets] loop of [dispatch]. *)
Fixpoint send_all (targets : list Channel) (message : NotificationMessage)
    (success : bool) (w : World) : bool * World :=
  match targets with
  | [] => (success, w)
  | ch :: rest =>
      let '(ok, x) := send ch message (ext w) in
      send_all rest message (success && ok)
        {| ext := x; trace := trace w ++ [Send (channel_str ch) message ok] |}
  end.

(** The body of [dispatch], before [with_retry] wraps it (what
    [functools.wraps] keeps as [dispatch.__wrapped__]). *)
Definition dispatch__wrapped__ (self : NotificationDispatcher)
    (message : NotificationMessage) (w : World) : bool * World :=
  let targets := default [] (channels self !! level message) in
  match targets with
  | [] =>
      (false,
       logger_call "notifications.dispatcher" "WARN"
         "No channels registered for level"
         [("level", FStr (level message))] w)
  | _ :: _ => send_all targets message true w
  end.

(** The [for attempt in range(...)] loop of [with_retry]'s wrapper, with
    [n] attempts left, and what follows the loop. An exception of
    [time.sleep] leaves the wrapper. *)
Fixpoint retry_loop (func : World → bool * World) (delay : Z) (n : nat)
    (attempt : Z) (w : World) : outcome bool * World :=
  match n with
  | 0 =>
      (Returned false,
       logger_call "notifications.retry" "ERROR"
         "Notification failed after retries" [] w)
  | S k =>
      let '(success, w1) := func w in
      let w2 := record_event (Call attempt success) w1 in
      if success then (Returned true, w2)
      else
        match
          sleep delay
            (logger_call "notifications.retry" "WARN" "Retrying notification"
               [("attempt", FInt attempt)] w2)
        with
        | (Returned _, w3) => retry_loop func delay k (attempt + 1)%Z w3
        | (Raised e, w3) => (Raised e, w3)
        end
  end.

(** [with_retry(retries, delay)(func)]: [range(1, retries + 1)] has
    [max(0, retries)] elements. *)
Definition with_retry (retries delay : Z) (func : World → bool * World)
    (w : World) : outcome bool * World :=
  retry_loop func delay (Z.to_nat retries) 1%Z w.

(** [NotificationDispatcher.dispatch], decorated with
    [@with_retry(retries=3, delay=3)]. *)
Definition dispatch (self : NotificationDispatcher)
    (message : NotificationMessage) (w : World) : outcome bool * World :=
  with_retry 3 3 (dispatch__wrapped__ self message) w.

(** The world after a failed attempt numbered [attempt] that left [x]:
    the call recorded, the retry warning logged, the delay slept. *)
Definition after_failed_attempt (delay attempt : Z) (x : World) : World :=
  record_event (Sleep delay)
    (logger_call "notifications.retry" "WARN" "Retrying notification"
       [("attempt", FInt attempt)] (record_event (Call attempt false) x)).

(** [failed_attempts func delay k attempt w w']: from [w], the function
    was invoked [k] times in a row, each invocation returning false and
    being followed by the warning and the delay, the next one starting
    where that left off; [w'] is where the last one left off. *)
Fixpoint failed_attempts (func : World → bool * World) (delay : Z) (k : nat)
    (attempt : Z) (w w' : World) : Prop :=
  match k with
  | 0 => w' = w
  | S k' =>
      ∃ x, func w = (false, x) ∧
           failed_attempts func delay k' (attempt + 1)%Z
             (after_failed_attempt delay attempt x) w'
  end.

(** The values the [Send] events of a trace report, as (channel, ok). *)
Definition sends (t : list event) : list (string * bool) :=
  omap (λ e, match e with Send c _ ok => Some (c, ok) | _ => None end) t.

(** The results of the calls [with_retry] made. *)
Definition calls (t : list event) : list bool :=
  omap (λ e, match e with Call _ ok => Some ok | _ => None end) t.

(** The delays slept. *)
Definition sleeps (t : list event) : list Z :=
  omap (λ e, match e with Sleep d => Some d | _ => None end) t.

(** What [send] returns on each of [targets] in turn, every one being
    called, and the outside state after the last. *)
Fixpoint send_each (targets : list Channel) (message : NotificationMessage)
    (x : W) : list bool * W :=
  match targets with
  | [] => ([], x)
  | ch :: rest =>
      let '(ok, x1) := send ch message x in
      let '(oks, x2) := send_each rest message x1 in
      (ok :: oks, x2)
  end.

(** The [Send] events of such a round. *)
Definition send_events (targets : list Channel) (message : NotificationMessage)
    (oks : list bool) : list event :=
  zip_with (λ ch ok, Send (channel_str ch) message ok) targets oks.

(** A sequence of [register_channel] calls. *)
Fixpoint register_all (registrations : list (string * Channel))
    (self : NotificationDispatcher) (w : World) : NotificationDispatcher * World :=
  match registrations with
  | [] => (self, w)
  | (level, channel) :: rest =>
      let '(_, self1, w1) := register_channel level channel self w in
      register_all rest self1 w1
  end.

(** The trace of one [dispatch] on a level without channels: three
    attempts, each warned about, retried and slept after, then the final
    error. *)
Definition no_channel_attempt (level : string) (attempt : Z) : list event :=
  [ Log "notifications.dispatcher" "WARN" "No channels registered for level"
      [("level", FStr level)];
    Call attempt false;
    Log "notifications.retry" "WARN" "Retrying notification"
      [("attempt", FInt attempt)];
    Sleep 3 ].

Definition no_channel_trace (level : string) : list event :=
  no_channel_attempt level 1 ++ no_channel_attempt level 2
  ++ no_channel_attempt level 3
  ++ [ Log "notifications.retry" "ERROR" "Notification failed after retries" [] ].

(** The channels a list of registrations holds for one level, in the
    order of the list. *)
Definition registered_for (lvl : string)
    (registrations : list (string * Channel)) : list Channel :=
  snd <$> filter (λ r, fst r = lvl) registrations.

End Channels.

Arguments World : clear implicits.
Arguments Channel : clear implicits.
Arguments NotificationDispatcher : clear implicits.

(** Channels and messages for the examples below; the outside state
    counts the [send] calls made. *)
Definition flaky_channel : Channel nat :=
  {| channel_str := "flaky"; send := λ _ n, (2 <=? n, S n) |}.

Definition failing_channel : Channel nat :=
  {| channel_str := "first"; send := λ _ n, (false, S n) |}.

Definition working_channel : Channel nat :=
  {| channel_str := "second"; send := λ _ n, (true, S n) |}.

Definition alert : NotificationMessage :=
  {| id := "7c9e6679-7425-40de-944b-e07fc1f90ae7"; level := "ALERT";
     title := "Fraud suspected"; text := "Card used in two countries";
     correlation_id := None; timestamp := 1700000000; metadata := ∅ |}.

Definition start : World nat := {| ext := 0; trace := [] |}.

Definition one_flaky_channel : NotificationDispatcher nat :=
  fst (register_all [("ALERT", flaky_channel)] new_NotificationDispatcher start).

Definition one_working_channel : NotificationDispatcher nat :=
  fst (register_all [("ALERT", working_channel)] new_NotificationDispatcher start).

Definition two_channels : NotificationDispatcher nat :=
  fst (register_all [("ALERT", failing_channel); ("ALERT", working_channel)]
         new_NotificationDispatcher start).

End Notifications.

(** ** helpers.py: the structured logger and the transaction logger *)

Module Helpers.
Import Py.

Section Logging.

Context {Any : Type}.
Variable uuid4 : nat → string.

(** A string as a field value. *)
Variable str_value : string → Any.

(** The [extra] dict [StructuredLogger] hands to the standard logger;
    [None] is an absent key. *)
Record Extra := {
  component : string;
  extra_fields : gmap string Any;
  correlation_id : option string;
  transaction_id : option string
}.

(** A call [logging.Logger.log(level, message, extra=extra)] on the
    logger of that name. *)
Record LogCall := {
  logger_name : string;
  levelno : Z;
  message : string;
  extra : Extra
}.

Record StructuredLogger := {
  name : string;
  sl_component : string
}.

(** The context store and the calls made to the standard loggers. *)
Record World := {
  store : Context.Store (Any:=Any);
  emitted : list LogCall
}.

(** [StructuredLogger._log]. *)
Definition _log (self : StructuredLogger) (level : Z) (message : string)
    (event : option string) (correlation_id transaction_id : option string)
    (extra_fields : gmap string Any) (w : World) : World :=
  let fields :=
    match event with
    | Some v => if truthy (Some v) then <["event" := str_value v]> extra_fields
                else extra_fields
    | None => extra_fields
    end in
  let cid :=
    if truthy correlation_id then correlation_id
    else if truthy (Context.get_correlation_id (store w))
         then Context.get_correlation_id (store w)
         else None in
  let tid := if truthy transaction_id then transaction_id else None in
  {| store := store w;
     emitted :=
       emitted w
       ++ [{| logger_name := name self; levelno := level; message := message;
              extra := {| component := sl_component self;
                          extra_fields := fields;
                          correlation_id := cid;
                          transaction_id := tid |} |}] |}.

(** [StructuredLogger.info]; [logging.INFO] is 20. The keyword arguments
    named correlation_id and transaction_id are those of [_log], the
    others are its extra fields. *)
Definition info (self : StructuredLogger) (message : string)
    (event : option string) (correlation_id transaction_id : option string)
    (extra_fields : gmap string Any) (w : World) : World :=
  _log self 20 message event correlation_id transaction_id extra_fields w.

(** [TransactionLogger.log_queued], on the logger
    [StructuredLogger('transactions', 'transactions')]. *)
Definition log_queued (transaction_id queue_name : string) (w : World)
    : outcome unit * World :=
  let '(lc, s1) :=
    Context.__enter__ uuid4
      (Context.new_LoggingContext None (Some transaction_id) None true ∅)
      (store w) in
  let w1 :=
    info {| name := "transactions"; sl_component := "transactions" |}
      ("Transaction queued: " +:+ transaction_id)
      (Some "transaction.queued") None (Some transaction_id)
      {[ "queue" := str_value queue_name ]}
      {| store := s1; emitted := emitted w |} in
  let '(x, s3) := Context.__exit__ uuid4 lc (store w1) in
  (x, {| store := s3; emitted := emitted w1 |}).

End Logging.

End Helpers.

(** * Properties *)

(** ** The context store and the scoped context manager *)

Module ContextSpec.
Import Py Context.

Section Store.

Context {Any : Type}.
Variable uuid4 : nat → string.

Implicit Types (s : Store (Any:=Any)) (d : gmap string Any).

Lemma dict_truthy_false {V} (d : gmap string V) :
  dict_truthy d = false ↔ d = ∅.
Proof.
  unfold dict_truthy. rewrite negb_false_iff, bool_decide_eq_true.
  apply map_size_empty_iff.
Qed.

Lemma restored_truthy (o : option string) :
  truthy o = true → restored o = o.
Proof. unfold restored. by intros ->. Qed.

Lemma restored_not_empty (o : option string) :
  o ≠ Some "" → restored o = o.
Proof. destruct o as [[|a r]|]; [congruence|done|done]. Qed.

Lemma restored_idem (o : option string) : restored (restored o) = restored o.
Proof. by destruct o as [[|a r]|]. Qed.

(** The identifier slots after the loop of [set_extra_field] calls are
    those before it; the context variable's dict gains the entries, and
    so does the thread-local one (created by the first call). *)
Lemma set_extra_fields_from_spec d s :
  let s' := set_extra_fields_from d s in
  correlation_id_ctx (ctx s') = correlation_id_ctx (ctx s) ∧
  transaction_id_ctx (ctx s') = transaction_id_ctx (ctx s) ∧
  user_id_ctx (ctx s') = user_id_ctx (ctx s) ∧
  tl_correlation_id (thread_local s') = tl_correlation_id (thread_local s) ∧
  tl_transaction_id (thread_local s') = tl_transaction_id (thread_local s) ∧
  tl_user_id (thread_local s') = tl_user_id (thread_local s) ∧
  uuid_calls s' = uuid_calls s ∧
  extra_fields_ctx (ctx s') = d ∪ extra_fields_ctx (ctx s) ∧
  ((d = ∅ ∧ tl_extra_fields (thread_local s') = tl_extra_fields (thread_local s)) ∨
   tl_extra_fields (thread_local s')
   = Some (d ∪ default ∅ (tl_extra_fields (thread_local s)))).
Proof.
  unfold set_extra_fields_from.
  apply (map_fold_weak_ind (λ (r : Store) (m : gmap string Any),
    correlation_id_ctx (ctx r) = correlation_id_ctx (ctx s) ∧
    transaction_id_ctx (ctx r) = transaction_id_ctx (ctx s) ∧
    user_id_ctx (ctx r) = user_id_ctx (ctx s) ∧
    tl_correlation_id (thread_local r) = tl_correlation_id (thread_local s) ∧
    tl_transaction_id (thread_local r) = tl_transaction_id (thread_local s) ∧
    tl_user_id (thread_local r) = tl_user_id (thread_local s) ∧
    uuid_calls r = uuid_calls s ∧
    extra_fields_ctx (ctx r) = m ∪ extra_fields_ctx (ctx s) ∧
    ((m = ∅ ∧ tl_extra_fields (thread_local r) = tl_extra_fields (thread_local s)) ∨
     tl_extra_fields (thread_local r)
     = Some (m ∪ default ∅ (tl_extra_fields (thread_local s)))))).
  - rewrite (left_id_L ∅ (∪)). repeat split; auto.
  - intros i x m r Hi (?&?&?&?&?&?&?&Hc&Ht). cbn.
    repeat split; try done.
    + rewrite Hc. by rewrite insert_union_l.
    + right. destruct Ht as [[-> Ht]|Ht]; rewrite Ht; cbn.
      * by rewrite <- insert_union_l, (left_id_L ∅ (∪)).
      * by rewrite insert_union_l.
Qed.

(** The loop leaves the three identifiers as observed before it. *)
Lemma set_extra_fields_from_ids d s :
  get_correlation_id (set_extra_fields_from d s) = get_correlation_id s ∧
  get_transaction_id (set_extra_fields_from d s) = get_transaction_id s ∧
  get_user_id (set_extra_fields_from d s) = get_user_id s.
Proof.
  destruct (set_extra_fields_from_spec d s) as (H1&H2&H3&H4&H5&H6&_).
  unfold get_correlation_id, get_transaction_id, get_user_id.
  by rewrite H1, H2, H3, H4, H5, H6.
Qed.

(** Whole-map replace: clearing and then setting every entry of [prev]
    makes [prev] the observed map, whatever it was before. *)
Lemma restore_extra_fields (prev : gmap string Any) s :
  get_extra_fields (set_extra_fields_from prev (clear_extra_fields s)) = prev.
Proof.
  destruct (set_extra_fields_from_spec prev (clear_extra_fields s))
    as (_&_&_&_&_&_&_&Hc&Ht).
  assert (Hd : default ∅ (tl_extra_fields (thread_local (clear_extra_fields s)))
               = (∅ : gmap string Any)).
  { cbn. destruct (tl_extra_fields (thread_local s)) eqn:E; cbn; [done|].
    by rewrite E. }
  unfold get_extra_fields. rewrite Hc. cbn [clear_extra_fields update ctx
    ctx_set_extra_fields extra_fields_ctx].
  rewrite (right_id_L ∅ (∪)).
  destruct (dict_truthy prev) eqn:Hp; [done|].
  apply dict_truthy_false in Hp. subst prev.
  destruct Ht as [[_ Ht]|Ht]; rewrite Ht; [exact Hd|].
  cbn [default]. by rewrite Hd, (left_id_L ∅ (∪)).
Qed.

(** Destructs a store and the options in sight, then computes. *)
Ltac crush_store s :=
  destruct s as [[c1 c2 c3 c4] [t1 t2 t3 t4] n]; cbn;
  repeat match goal with
         | |- context [match ?o with Some _ => _ | None => _ end] =>
             is_var o; destruct o; cbn
         end;
  try done.

(** The three identifier slots after the restoring part of [__exit__]. *)
Lemma exit_spec (lc : LoggingContext (Any:=Any)) s prev :
  prev_extra_fields lc = Some prev →
  fst (__exit__ uuid4 lc s) = Returned tt ∧
  get_correlation_id (snd (__exit__ uuid4 lc s)) = restored (prev_correlation_id lc) ∧
  get_transaction_id (snd (__exit__ uuid4 lc s)) = restored (prev_transaction_id lc) ∧
  get_user_id (snd (__exit__ uuid4 lc s)) = restored (prev_user_id lc) ∧
  get_extra_fields (snd (__exit__ uuid4 lc s)) = prev.
Proof.
  intros Hprev. unfold __exit__. rewrite Hprev. cbn [fst snd].
  split; [done|].
  match goal with
  | |- context [set_extra_fields_from prev (clear_extra_fields ?x)] =>
      destruct (set_extra_fields_from_ids prev (clear_extra_fields x))
        as (-> & -> & ->);
      rewrite (restore_extra_fields prev x)
  end.
  destruct lc as [? ? ? ? ? [[|a1 r1]|] [[|a2 r2]|] [[|a3 r3]|] ?]; cbn;
    (repeat split; try done); crush_store s.
Qed.

Lemma enter_snapshot (lc : LoggingContext (Any:=Any)) s :
  prev_correlation_id (fst (__enter__ uuid4 lc s)) = get_correlation_id s ∧
  prev_transaction_id (fst (__enter__ uuid4 lc s)) = get_transaction_id s ∧
  prev_user_id (fst (__enter__ uuid4 lc s)) = get_user_id s ∧
  prev_extra_fields (fst (__enter__ uuid4 lc s)) = Some (get_extra_fields s).
Proof. done. Qed.

(** A scope puts back what was observed on entry, whatever its body did
    and however the body ended, and hands the body's outcome on. *)
Lemma with_LoggingContext_spec {R} (lc : LoggingContext (Any:=Any))
    (body : LoggingContext → Store → outcome R * Store) s :
  get_current_context (snd (with_LoggingContext uuid4 lc body s))
  = restored_context (get_current_context s) ∧
  fst (with_LoggingContext uuid4 lc body s)
  = fst (body (fst (__enter__ uuid4 lc s)) (snd (__enter__ uuid4 lc s))).
Proof.
  unfold with_LoggingContext.
  destruct (__enter__ uuid4 lc s) as [lc' s1] eqn:He.
  destruct (enter_snapshot lc s) as (Hc & Ht & Hu & Hx).
  rewrite He in Hc, Ht, Hu, Hx. cbn [fst snd] in *.
  destruct (body lc' s1) as [r s2].
  destruct (exit_spec lc' s2 _ Hx) as (Hr & Hc' & Ht' & Hu' & Hx').
  destruct (__exit__ uuid4 lc' s2) as [x s3]. cbn [fst snd] in *.
  subst x. cbv iota beta. cbn [fst snd]. split; [|done].
  unfold get_current_context, restored_context.
  by rewrite Hc', Ht', Hu', Hx', Hc, Ht, Hu.
Qed.

(** C2 (as amended). On exit from a [LoggingContext] scope, for every
    prior state of the two stores, every scope and every body, whether
    the body returned or raised: the extra fields observed are exactly
    those observed before entry (fields added inside are gone), and each
    of correlation_id, transaction_id and user_id is observed as before
    entry when that value was [None] or a non-empty string, an empty
    string being put back as [None] ([restored]). The body's result or
    exception is what the [with] statement gives. For a scope nested in
    another, what is observed right after the inner exit is, in the same
    sense, what the outer scope had before the inner entry, and the outer
    exit still puts back what preceded the outer entry. *)
Theorem LoggingContext_exit_restores :
  (∀ R (lc : LoggingContext (Any:=Any))
     (body : LoggingContext → Store → outcome R * Store) s,
     get_current_context (snd (with_LoggingContext uuid4 lc body s))
     = restored_context (get_current_context s) ∧
     fst (with_LoggingContext uuid4 lc body s)
     = fst (body (fst (__enter__ uuid4 lc s)) (snd (__enter__ uuid4 lc s)))) ∧
  (∀ R (outer inner : LoggingContext (Any:=Any))
     (body : LoggingContext → Store → outcome R * Store) s,
     let s1 := snd (__enter__ uuid4 outer s) in
     get_current_context (snd (with_LoggingContext uuid4 inner body s1))
     = restored_context (get_current_context s1)) ∧
  (∀ R Q (outer inner : LoggingContext (Any:=Any))
     (body : LoggingContext → Store → outcome R * Store)
     (rest : outcome R → Store → outcome Q * Store) s,
     get_current_context (snd (nested_scopes uuid4 outer inner body rest s))
     = restored_context (get_current_context s)).
Proof.
  split; [|split].
  - intros. apply with_LoggingContext_spec.
  - intros. apply with_LoggingContext_spec.
  - intros. unfold nested_scopes. apply with_LoggingContext_spec.
Qed.

(** When no identifier was observed as the empty string, the whole
    observed context is exactly as before entry. *)
Lemma LoggingContext_exit_restores_exactly {R} (lc : LoggingContext (Any:=Any))
    (body : LoggingContext → Store → outcome R * Store) s :
  get_correlation_id s ≠ Some "" →
  get_transaction_id s ≠ Some "" →
  get_user_id s ≠ Some "" →
  get_current_context (snd (with_LoggingContext uuid4 lc body s))
  = get_current_context s.
Proof.
  intros Hc Ht Hu.
  destruct (with_LoggingContext_spec lc body s) as [-> _].
  unfold get_current_context, restored_context.
  by rewrite !restored_not_empty.
Qed.

(** C10. In one thread of control: [set_correlation_id(c)] returns [c]
    and [get_correlation_id()] then returns [c], for every string [c];
    [set_correlation_id()] returns the identifier [uuid4] generates at
    this call (the generator moves on, so the next call gets the next
    one), and [get_correlation_id()] then returns it; after
    [clear_correlation_id()], [get_correlation_id()] returns [None]; and
    clearing where nothing is set (the initial store, or a store just
    cleared) changes nothing and raises nothing. *)
Theorem correlation_id_set_get_clear (s : Store (Any:=Any)) :
  (∀ c : string,
     fst (set_correlation_id uuid4 (Some c) s) = c ∧
     get_correlation_id (snd (set_correlation_id uuid4 (Some c) s)) = Some c) ∧
  (fst (set_correlation_id uuid4 None s) = uuid4 (uuid_calls s) ∧
   get_correlation_id (snd (set_correlation_id uuid4 None s))
   = Some (uuid4 (uuid_calls s)) ∧
   uuid_calls (snd (set_correlation_id uuid4 None s)) = S (uuid_calls s)) ∧
  get_correlation_id (clear_correlation_id s) = None ∧
  clear_correlation_id (clear_correlation_id s) = clear_correlation_id s ∧
  clear_correlation_id (initial_store (Any:=Any)) = initial_store.
Proof.
  split; [|split; [|split; [|split]]].
  - intros c. split; [done|].
    unfold get_correlation_id; cbn. by destruct c.
  - repeat split; try done.
    unfold get_correlation_id; cbn. by destruct (uuid4 (uuid_calls s)).
  - unfold get_correlation_id. crush_store s.
  - destruct s as [c [[t1|] t2 t3 t4] n]; done.
  - done.
Qed.

(** *** Further properties of the context store *)

Lemma in_sync_getters s :
  in_sync s →
  get_correlation_id s = correlation_id_ctx (ctx s) ∧
  get_transaction_id s = transaction_id_ctx (ctx s) ∧
  get_user_id s = user_id_ctx (ctx s) ∧
  get_extra_fields s = extra_fields_ctx (ctx s).
Proof.
  intros (Hc & Ht & Hu & Hx).
  unfold get_correlation_id, get_transaction_id, get_user_id, get_extra_fields.
  rewrite <- Hc, <- Ht, <- Hu, <- Hx.
  repeat split; try (by destruct (truthy _)).
  destruct (dict_truthy _) eqn:Hd; [done|].
  by apply dict_truthy_false in Hd.
Qed.

(** X1. [set_transaction_id(t)] then [get_transaction_id()] gives [t],
    and [set_user_id(u)] then [get_user_id()] gives [u], for every
    string, the empty one included and whatever the stores held; after
    the matching clear the getter gives [None]; setting one of the three
    identifiers leaves the other two as observed. *)
Theorem transaction_and_user_id_set_get_clear (s : Store (Any:=Any))
    (t u : string) :
  get_transaction_id (set_transaction_id t s) = Some t ∧
  get_user_id (set_user_id u s) = Some u ∧
  get_transaction_id (clear_transaction_id s) = None ∧
  get_user_id (clear_user_id s) = None ∧
  get_correlation_id (set_transaction_id t s) = get_correlation_id s ∧
  get_user_id (set_transaction_id t s) = get_user_id s ∧
  get_correlation_id (set_user_id u s) = get_correlation_id s ∧
  get_transaction_id (set_user_id u s) = get_transaction_id s.
Proof.
  unfold get_transaction_id, get_user_id, get_correlation_id.
  repeat split; cbn; try done.
  - by destruct t.
  - by destruct u.
  - crush_store s.
  - crush_store s.
Qed.

Lemma get_extra_fields_set_extra_field (key : string) (value : Any) s :
  get_extra_fields (set_extra_field key value s)
  = <[key:=value]> (extra_fields_ctx (ctx s)).
Proof.
  unfold get_extra_fields. cbn.
  destruct (dict_truthy _) eqn:Hd; [done|].
  apply dict_truthy_false in Hd. by apply insert_non_empty in Hd.
Qed.

(** X2. After [set_extra_field(key, value)], [get_extra_fields()] maps
    [key] to [value], whatever the stores held; the map returned is the
    context variable's dict with the key written, so a field held only
    by the thread-local dict is no longer returned. *)
Theorem set_extra_field_observed (key : string) (value : Any) s :
  get_extra_fields (set_extra_field key value s) !! key = Some value ∧
  get_extra_fields (set_extra_field key value s)
  = <[key:=value]> (extra_fields_ctx (ctx s)).
Proof.
  rewrite get_extra_fields_set_extra_field.
  split; [apply lookup_insert_eq|done].
Qed.

Lemma set_extra_field_in_sync (key : string) (value : Any) s :
  in_sync s → in_sync (set_extra_field key value s).
Proof.
  intros (Hc & Ht & Hu & Hx). repeat split; try done. cbn. by rewrite Hx.
Qed.

Lemma set_extra_fields_from_in_sync d s :
  in_sync s → in_sync (set_extra_fields_from d s).
Proof.
  intros Hs. unfold set_extra_fields_from.
  apply (map_fold_weak_ind (λ (r : Store) (_ : gmap string Any), in_sync r));
    [done|].
  intros i x m r _ Hr. by apply set_extra_field_in_sync.
Qed.

Lemma set_correlation_id_in_sync (c : option string) s :
  in_sync s → in_sync (snd (set_correlation_id uuid4 c s)).
Proof. intros (Hc & Ht & Hu & Hx). by destruct c. Qed.

Lemma set_transaction_id_in_sync (t : string) s :
  in_sync s → in_sync (set_transaction_id t s).
Proof. intros (?&?&?&?). by repeat split. Qed.

Lemma set_user_id_in_sync (u : string) s :
  in_sync s → in_sync (set_user_id u s).
Proof. intros (?&?&?&?). by repeat split. Qed.

(** Closes [in_sync] goals on stores built by the setters. *)
Ltac sync :=
  repeat first
    [ assumption
    | apply set_extra_fields_from_in_sync
    | apply set_user_id_in_sync
    | apply set_transaction_id_in_sync
    | apply set_correlation_id_in_sync ].

Lemma enter_in_sync (lc : LoggingContext (Any:=Any)) s :
  in_sync s → in_sync (snd (__enter__ uuid4 lc s)).
Proof.
  intros Hs. unfold __enter__. cbn [snd].
  destruct lc as [[[|a0 r0]|] [[|a1 r1]|] [[|a2 r2]|] [|] ? ? ? ? ?];
    cbn [correlation_id transaction_id user_id auto_generate_correlation
         extra_fields truthy orb]; sync.
Qed.

Lemma set_context_from_dict_in_sync (context : ContextDict) s :
  in_sync s → in_sync (set_context_from_dict uuid4 context s).
Proof.
  intros Hs. unfold set_context_from_dict.
  destruct context as [[[[|a0 r0]|]|] [[[|a1 r1]|]|] [[[|a2 r2]|]|] [[?|]|]];
    cbn [d_correlation_id d_transaction_id d_user_id d_extra_fields truthy];
    sync.
Qed.

(** X3. In one thread of control the two stores never drift apart: when
    the context variables and the thread-local attributes agree, they
    still agree after each setter, after [set_extra_field] and after
    entering a scope, and the getters then return what the context
    variables hold; [get_extra_fields()] after [set_extra_field] is the
    map returned before with the key written. *)
Theorem stores_stay_in_sync s :
  in_sync s →
  (∀ c, in_sync (snd (set_correlation_id uuid4 c s))) ∧
  (∀ t, in_sync (set_transaction_id t s)) ∧
  (∀ u, in_sync (set_user_id u s)) ∧
  (∀ key value, in_sync (set_extra_field key value s)) ∧
  (∀ lc : LoggingContext (Any:=Any), in_sync (snd (__enter__ uuid4 lc s))) ∧
  (∀ context, in_sync (set_context_from_dict uuid4 context s)) ∧
  get_current_context s
  = (correlation_id_ctx (ctx s), transaction_id_ctx (ctx s),
     user_id_ctx (ctx s), extra_fields_ctx (ctx s)) ∧
  (∀ key value, get_extra_fields (set_extra_field key value s)
                = <[key:=value]> (get_extra_fields s)).
Proof.
  intros Hs. pose proof Hs as (Hc & Ht & Hu & Hx).
  split; [intros; by apply set_correlation_id_in_sync|].
  split; [by repeat split|]. split; [by repeat split|].
  split; [intros; by apply set_extra_field_in_sync|].
  split; [intros; by apply enter_in_sync|].
  split; [intros; by apply set_context_from_dict_in_sync|].
  destruct (in_sync_getters s Hs) as (Gc & Gt & Gu & Gx).
  split.
  { unfold get_current_context. by rewrite Gc, Gt, Gu, Gx. }
  intros key value.
  rewrite get_extra_fields_set_extra_field. by rewrite Gx.
Qed.

Lemma set_extra_fields_from_onto_empty d s :
  extra_fields_ctx (ctx s) = ∅ →
  default ∅ (tl_extra_fields (thread_local s)) = ∅ →
  get_extra_fields (set_extra_fields_from d s) = d ∧
  extra_fields_ctx (ctx (set_extra_fields_from d s)) = d ∧
  default ∅ (tl_extra_fields (thread_local (set_extra_fields_from d s))) = d.
Proof.
  intros Hc Ht.
  destruct (set_extra_fields_from_spec d s) as (_&_&_&_&_&_&_&Hc'&Ht').
  rewrite Hc, (right_id_L ∅ (∪)) in Hc'.
  assert (Hd : default ∅ (tl_extra_fields (thread_local (set_extra_fields_from d s)))
               = d).
  { destruct Ht' as [[-> Ht']|Ht']; rewrite Ht'; [done|].
    cbn. by rewrite Ht, (right_id_L ∅ (∪)). }
  split; [|done].
  unfold get_extra_fields. rewrite Hc', Hd. by destruct (dict_truthy d).
Qed.

(** X4. [clear_all_context()] leaves nothing to observe, whatever the
    two stores held: the three identifiers read [None] and the extra
    fields read empty; the stores agree afterwards, and clearing again
    changes nothing. *)
Theorem clear_all_context_clears (s : Store (Any:=Any)) :
  get_current_context (clear_all_context s) = (None, None, None, ∅) ∧
  in_sync (clear_all_context s) ∧
  clear_all_context (clear_all_context s) = clear_all_context s.
Proof.
  split; [|split].
  - unfold get_current_context, get_correlation_id, get_transaction_id,
      get_user_id, get_extra_fields.
    assert (Hd : dict_truthy (∅ : gmap string Any) = false)
      by by apply dict_truthy_false.
    destruct s as [c [[?|] [?|] [?|] [?|]] n]; cbn; by rewrite Hd.
  - destruct s as [c [[?|] [?|] [?|] [?|]] n]; by repeat split.
  - by destruct s as [c [[?|] [?|] [?|] [?|]] n].
Qed.

(** X5. Leaving a scope brings the two stores back into agreement:
    whatever they held before entry, even if they disagreed, and
    whatever the body did to them, each context variable holds what the
    thread-local attribute holds once the [with] statement is over. *)
Theorem scope_exit_resynchronizes {R} (lc : LoggingContext (Any:=Any))
    (body : LoggingContext → Store → outcome R * Store) s :
  in_sync (snd (with_LoggingContext uuid4 lc body s)).
Proof.
  unfold with_LoggingContext.
  destruct (__enter__ uuid4 lc s) as [lc' s1] eqn:He.
  assert (Hx : prev_extra_fields lc' = Some (get_extra_fields s)).
  { by injection He as <- _. }
  destruct (body lc' s1) as [r s2].
  unfold __exit__. rewrite Hx.
  cbn [snd].
  match goal with
  | |- in_sync (set_extra_fields_from _ (clear_extra_fields ?y)) =>
      remember y as x eqn:Ex
  end.
  assert (Hids :
    correlation_id_ctx (ctx x) = tl_correlation_id (thread_local x) ∧
    transaction_id_ctx (ctx x) = tl_transaction_id (thread_local x) ∧
    user_id_ctx (ctx x) = tl_user_id (thread_local x)).
  { subst x.
    destruct lc' as [? ? ? ? ? [[|a1 r1]|] [[|a2 r2]|] [[|a3 r3]|] ?]; cbn;
      (repeat split); crush_store s2. }
  clear Ex. destruct Hids as (Hc & Ht & Hu).
  destruct (set_extra_fields_from_spec (get_extra_fields s) (clear_extra_fields x))
    as (H1&H2&H3&H4&H5&H6&_).
  destruct (set_extra_fields_from_onto_empty (get_extra_fields s)
              (clear_extra_fields x)) as (_ & Hc' & Ht').
  { done. }
  { cbn. destruct (tl_extra_fields (thread_local x)) eqn:E; cbn; [done|].
    by rewrite E. }
  unfold in_sync. rewrite H1, H2, H3, H4, H5, H6, Hc', Ht'.
  cbn. repeat split; try done.
  all: destruct (tl_extra_fields (thread_local x)); done.
Qed.

(** X6. Handing a context over: the dict [copy_context()] makes in one
    thread of control, given to [set_context_from_dict] where the
    context has been cleared, makes the same extra fields and the same
    identifiers observable there, an identifier observed as the empty
    string arriving as [None]. *)
Theorem copy_context_round_trip (s t : Store (Any:=Any)) :
  get_current_context
    (set_context_from_dict uuid4 (copy_context s) (clear_all_context t))
  = restored_context (get_current_context s).
Proof.
  unfold copy_context, get_current_context, restored_context.
  generalize (get_correlation_id s) (get_transaction_id s) (get_user_id s)
    (get_extra_fields s).
  intros c t' u x. unfold set_context_from_dict.
  cbn [d_correlation_id d_transaction_id d_user_id d_extra_fields].
  match goal with
  | |- context [set_extra_fields_from x ?y] => remember y as s3 eqn:E3
  end.
  destruct (set_extra_fields_from_ids x s3) as (-> & -> & ->).
  destruct (set_extra_fields_from_onto_empty x s3) as (-> & _).
  { subst s3. destruct c as [[|? ?]|], t' as [[|? ?]|], u as [[|? ?]|];
      by cbn. }
  { subst s3.
    destruct c as [[|? ?]|], t' as [[|? ?]|], u as [[|? ?]|];
      destruct t as [ct [[?|] [?|] [?|] [?|]] n]; by cbn. }
  subst s3. unfold get_correlation_id, get_transaction_id, get_user_id.
  destruct c as [[|? ?]|], t' as [[|? ?]|], u as [[|? ?]|];
    destruct t as [ct [[?|] [?|] [?|] [?|]] n]; by cbn.
Qed.

Lemma enter_ids (lc : LoggingContext (Any:=Any)) s :
  let s' := snd (__enter__ uuid4 lc s) in
  get_correlation_id s' = entered_correlation_id uuid4 lc s ∧
  get_transaction_id s'
  = (if truthy (transaction_id lc) then transaction_id lc
     else get_transaction_id s) ∧
  get_user_id s'
  = (if truthy (user_id lc) then user_id lc else get_user_id s).
Proof.
  unfold __enter__. cbn [snd]. cbv zeta.
  match goal with
  | |- context [set_extra_fields_from (extra_fields lc) ?y] =>
      remember y as s3 eqn:E3
  end.
  destruct (set_extra_fields_from_ids (extra_fields lc) s3) as (-> & -> & ->).
  subst s3. split; [|split].
  - unfold entered_correlation_id, get_correlation_id.
    destruct lc as [[[|a0 r0]|] [[|a1 r1]|] [[|a2 r2]|] [|] ? ? ? ? ?]; cbn;
      try done; by destruct (uuid4 (uuid_calls s)).
  - unfold get_transaction_id.
    destruct lc as [[[|a0 r0]|] [[|a1 r1]|] [[|a2 r2]|] [|] ? ? ? ? ?];
      by cbn.
  - unfold get_user_id.
    destruct lc as [[[|a0 r0]|] [[|a1 r1]|] [[|a2 r2]|] [|] ? ? ? ? ?];
      by cbn.
Qed.

(** X7. What a scope makes observable on entry. The correlation id is
    the given one when it is truthy; with auto-generation on (the
    default) it is otherwise a newly generated one when none was given,
    even where one was already set, or the empty string when that was
    given; with auto-generation off and nothing truthy given, it stays
    as it was. transaction_id and user_id are the given ones when
    truthy and otherwise stay as they were. Every extra field given to
    the scope is observable with its value. *)
Theorem enter_sets_context (lc : LoggingContext (Any:=Any)) s :
  let s' := snd (__enter__ uuid4 lc s) in
  get_correlation_id s' = entered_correlation_id uuid4 lc s ∧
  get_transaction_id s'
  = (if truthy (transaction_id lc) then transaction_id lc
     else get_transaction_id s) ∧
  get_user_id s'
  = (if truthy (user_id lc) then user_id lc else get_user_id s) ∧
  extra_fields lc ⊆ get_extra_fields s'.
Proof.
  destruct (enter_ids lc s) as (Hc & Ht & Hu). cbv zeta in *.
  split; [done|]. split; [done|]. split; [done|].
  unfold __enter__. cbn [snd].
  match goal with
  | |- context [set_extra_fields_from (extra_fields lc) ?y] =>
      generalize y; intros s3
  end.
  destruct (set_extra_fields_from_spec (extra_fields lc) s3)
    as (_&_&_&_&_&_&_&Hx&_).
  unfold get_extra_fields. rewrite Hx.
  destruct (dict_truthy _) eqn:Hd; [apply map_union_subseteq_l|].
  apply dict_truthy_false in Hd.
  apply map_positive_l in Hd. rewrite Hd. apply map_empty_subseteq.
Qed.

End Store.

End ContextSpec.

(** ** Examples on the context store *)

Module ContextExamples.
Import Py Context.

(** C2, as stated, fails where the correlation id was set to the empty
    string before entry: it is observed as the empty string before the
    scope and as [None] after it. *)
Lemma LoggingContext_exit_loses_empty_correlation_id :
  let uuid4 := λ _ : nat, "3f2b8c1e-5d4a-4e6f-9a7b-0c1d2e3f4a5b" in
  let s := store_with_empty_correlation_id in
  let s' := snd (with_LoggingContext uuid4
                   (new_LoggingContext None None None true ∅)
                   (λ _ w, (Returned tt, w)) s) in
  get_correlation_id s = Some "" ∧
  get_correlation_id s' = None ∧
  get_correlation_id s' ≠ get_correlation_id s.
Proof. vm_compute. repeat split; congruence. Qed.

(** The example of the specification: nothing set on entry, the scope
    sets "X", the body sets "Y", and on exit nothing is set again. *)
Example scope_restore_example :
  let uuid4 := λ _ : nat, "3f2b8c1e-5d4a-4e6f-9a7b-0c1d2e3f4a5b" in
  let r := with_LoggingContext uuid4
             (new_LoggingContext (Some "X") None None true (∅ : gmap string string))
             (λ _ w, let '(_, w1) := set_correlation_id uuid4 (Some "Y") w in
                     (Returned (get_correlation_id w1), w1))
             initial_store in
  fst r = Returned (Some "Y") ∧ get_correlation_id (snd r) = None.
Proof. vm_compute. done. Qed.

Lemma stores_stay_in_sync_witness :
  let uuid4 := λ _ : nat, "3f2b8c1e-5d4a-4e6f-9a7b-0c1d2e3f4a5b" in
  let s : Store (Any:=string) := initial_store in
  in_sync s ∧
  ((∀ c, in_sync (snd (set_correlation_id uuid4 c s))) ∧
   (∀ t, in_sync (set_transaction_id t s)) ∧
   (∀ u, in_sync (set_user_id u s)) ∧
   (∀ key value, in_sync (set_extra_field key value s)) ∧
   (∀ lc : LoggingContext (Any:=string), in_sync (snd (__enter__ uuid4 lc s))) ∧
   (∀ context, in_sync (set_context_from_dict uuid4 context s)) ∧
   get_current_context s
   = (correlation_id_ctx (ctx s), transaction_id_ctx (ctx s),
      user_id_ctx (ctx s), extra_fields_ctx (ctx s)) ∧
   (∀ key value, get_extra_fields (set_extra_field key value s)
                 = <[key:=value]> (get_extra_fields s))).
Proof.
  intros uuid4 s.
  assert (Hs : in_sync s) by (repeat split; reflexivity).
  split; [exact Hs|].
  exact (ContextSpec.stores_stay_in_sync uuid4 s Hs).
Defined.

(** A context handed over to a thread that had one of its own. *)
Example copy_context_example :
  let uuid4 := λ _ : nat, "3f2b8c1e-5d4a-4e6f-9a7b-0c1d2e3f4a5b" in
  let source :=
    set_extra_field "step" "ingest"
      (set_user_id "u-7" (snd (set_correlation_id uuid4 (Some "req-1")
                                 initial_store))) in
  let target := set_transaction_id "tx-old" initial_store in
  get_current_context
    (set_context_from_dict uuid4 (copy_context source) (clear_all_context target))
  = (Some "req-1", None, Some "u-7", {[ "step" := "ingest" ]}).
Proof. vm_compute. reflexivity. Qed.

End ContextExamples.

(** ** The fallback buffer, handler and safe logger *)

Module FallbackSpec.
Import Py Fallback.

(** One [add] on a buffer within its capacity keeps the newest
    [capacity] messages. *)
Lemma add_keeps_newest (c : nat) (b : list string) (m : string) :
  length b ≤ c →
  buffer (add m {| capacity := c; buffer := b |})
  = drop (length (b ++ [m]) - c) (b ++ [m]).
Proof.
  intros Hb. unfold add. cbn [buffer capacity].
  rewrite length_app. cbn [length].
  destruct (Nat.ltb_spec c (length b + 1)) as [Hlt|Hge].
  - replace (length b + 1 - c) with 1 by lia. by destruct b.
  - by replace (length b + 1 - c) with 0 by lia.
Qed.

Lemma add_all_snoc (messages : list string) (m : string) (b : BufferManager) :
  add_all (messages ++ [m]) b = add m (add_all messages b).
Proof. unfold add_all. by rewrite foldl_app. Qed.

Lemma add_capacity (m : string) (b : BufferManager) :
  capacity (add m b) = capacity b.
Proof. done. Qed.

Lemma add_all_capacity (messages : list string) (b : BufferManager) :
  capacity (add_all messages b) = capacity b.
Proof.
  induction messages as [|m messages IH] using rev_ind; [done|].
  by rewrite add_all_snoc, add_capacity.
Qed.

(** After any sequence of [add] calls on a new buffer, the buffer is the
    suffix of the sequence that fits the capacity. *)
Lemma add_all_buffer (c : nat) (messages : list string) :
  buffer (add_all messages (new_BufferManager c))
  = drop (length messages - c) messages.
Proof.
  induction messages as [|m messages IH] using rev_ind.
  - by rewrite Nat.sub_0_l.
  - rewrite add_all_snoc.
    pose proof (add_all_capacity messages (new_BufferManager c)) as Hc.
    destruct (add_all messages (new_BufferManager c)) as [c' b].
    cbn in Hc, IH. subst c' b.
    rewrite add_keeps_newest by (rewrite length_drop; lia).
    rewrite length_app, length_drop, length_app. cbn [length].
    destruct (decide (length messages ≤ c)) as [Hle|Hgt].
    + replace (length messages - c) with 0 by lia.
      rewrite drop_0. f_equal. lia.
    + rewrite <- drop_app_le by lia. rewrite drop_drop. f_equal. lia.
Qed.

(** C7. For every capacity [c] and every sequence of added messages, the
    buffer holds at most [c] messages after each addition, and after all
    of them holds exactly the last [min n c] messages, in insertion
    order; with capacity 3, adding m1..m5 leaves [m3; m4; m5]. *)
Theorem buffer_fifo_eviction (c : nat) (messages : list string) :
  (∀ k, length (buffer (add_all (take k messages) (new_BufferManager c))) ≤ c) ∧
  buffer (add_all messages (new_BufferManager c))
  = drop (length messages - length messages `min` c) messages ∧
  length (buffer (add_all messages (new_BufferManager c)))
  = length messages `min` c ∧
  buffer (add_all ["m1"; "m2"; "m3"; "m4"; "m5"] (new_BufferManager 3))
  = ["m3"; "m4"; "m5"].
Proof.
  split; [|split; [|split]].
  - intros k. rewrite add_all_buffer, length_drop. lia.
  - rewrite add_all_buffer. f_equal. lia.
  - rewrite add_all_buffer, length_drop. lia.
  - reflexivity.
Qed.

Section Collaborators.

Context {W : Type}.
Variable strftime : W → string.

Implicit Types (cb : string → W → outcome unit * W).

(** The calls made by the loop of [flush]: on a prefix of the snapshot,
    in its order, every call but the last having returned; either the
    whole snapshot was gone through, or the last call raised. *)
Lemma flush_loop_spec cb (snapshot : list string) (w : W) :
  let calls := fst (flush_loop cb snapshot w) in
  (∃ rest, snapshot = map fst calls ++ rest) ∧
  ((Forall returned_call calls ∧ map fst calls = snapshot) ∨
   (∃ pre m e, calls = pre ++ [(m, Raised e)] ∧ Forall returned_call pre)).
Proof.
  revert w. induction snapshot as [|msg rest IH]; intros w; cbn.
  - split; [by exists []|]. left. by split.
  - destruct (cb msg w) as [[u|e] w1].
    + specialize (IH w1).
      destruct (flush_loop cb rest w1) as [calls w2]. cbn in *.
      destruct IH as [[tl Htl] Hcases]. split.
      * exists tl. by f_equal.
      * destruct Hcases as [[Hall Heq]|(pre & m & e & -> & Hpre)].
        -- left. split; [by constructor|by f_equal].
        -- right. exists ((msg, Returned u) :: pre), m, e.
           split; [done|by constructor].
    + cbn. split; [by exists rest|].
      right. by exists [], msg, e.
Qed.

(** The record of calls the loop of [flush] gives is that of the
    callback really applied, and the world it ends in is where the last
    application left off. *)
Lemma flush_loop_called cb (snapshot : list string) (w : W) :
  called cb (fst (flush_loop cb snapshot w)) w (snd (flush_loop cb snapshot w)).
Proof.
  revert w. induction snapshot as [|msg rest IH]; intros w; cbn; [done|].
  destruct (cb msg w) as [[u|e] w1] eqn:Hcb.
  - specialize (IH w1). destruct (flush_loop cb rest w1) as [calls w2].
    cbn in *. rewrite Hcb. by exists w1.
  - cbn. rewrite Hcb. by exists w1.
Qed.

(** C4. For every buffer content and every callback, [flush] applies
    the callback to the buffered messages in insertion order, once each,
    each application starting where the one before left off, up to and
    including the first one on which it raises: the applications are on
    a prefix of the buffer; either all returned and the prefix is the
    whole buffer, or the last one raised and every one before it
    returned (the messages after it are not attempted). [flush] ends
    where the last application left off, and in every case, the empty
    buffer included, the buffer is empty when it returns. *)
Theorem flush_then_clear cb (self : BufferManager) (w : W) :
  let '(self', calls, w') := flush cb self w in
  buffer self' = [] ∧
  capacity self' = capacity self ∧
  called cb calls w w' ∧
  (∃ rest, buffer self = map fst calls ++ rest) ∧
  ((Forall returned_call calls ∧ map fst calls = buffer self) ∨
   (∃ pre m e, calls = pre ++ [(m, Raised e)] ∧ Forall returned_call pre)).
Proof.
  unfold flush.
  pose proof (flush_loop_spec cb (buffer self) w) as H.
  pose proof (flush_loop_called cb (buffer self) w) as Hc.
  destruct (flush_loop cb (buffer self) w) as [calls w1]. cbn in H, Hc.
  destruct H as [Hprefix Hcases]. by split; [|split; [|split; [|split]]].
Qed.

Lemma flush_loop_all_returned cb (snapshot : list string) (w : W) :
  (∀ m x, raised (fst (cb m x)) = false) →
  Forall returned_call (fst (flush_loop cb snapshot w)).
Proof.
  intros Hcb. revert w.
  induction snapshot as [|a l IH]; intros w; cbn; [constructor|].
  specialize (Hcb a w). destruct (cb a w) as [[u|e] w1]; [|done].
  specialize (IH w1). destruct (flush_loop cb l w1). by constructor.
Qed.

(** With a callback that never raises, every buffered message is
    replayed. *)
Lemma flush_all_when_callback_returns cb (self : BufferManager) (w : W) :
  (∀ m x, raised (fst (cb m x)) = false) →
  map fst (snd (fst (flush cb self w))) = buffer self.
Proof.
  intros Hcb. unfold flush.
  pose proof (flush_loop_all_returned cb (buffer self) w Hcb) as Hall.
  pose proof (flush_loop_spec cb (buffer self) w) as H.
  destruct (flush_loop cb (buffer self) w) as [calls w1]. cbn in *.
  destruct H as (_ & [[_ H]|(pre & m & e & -> & _)]); [done|].
  apply Forall_app in Hall as [_ Hall].
  inversion Hall as [|? ? Hbad _]. by cbv in Hbad.
Qed.

(** After [add], the message is the newest in the buffer, unless the
    buffer has no room at all. *)
Lemma add_last (msg : string) (b : BufferManager) :
  capacity b = 0 ∨ last (buffer (add msg b)) = Some msg.
Proof.
  destruct b as [[|c] l]; [by left|right].
  unfold add. cbn [capacity buffer].
  destruct (Nat.ltb_spec (S c) (length (l ++ [msg]))) as [Hlt|_].
  - destruct l as [|x l]; [cbn in Hlt; lia|]. cbn. apply last_snoc.
  - apply last_snoc.
Qed.

(** C3. For every level and message, when the primary logger's [log]
    raises, [SafeLogger.log] returns without raising; the message has
    been added to the fallback buffer (where it is the newest entry,
    unless the capacity is 0), and one record, the message annotated
    with the error and timestamped, has been put on the fallback
    handler's queue. *)
Theorem log_absorbs_primary_failure (level msg : string)
    (self : SafeLogger) (w : W) (e : Exception) (w1 : W) :
  main_logger self level msg w = (Raised e, w1) →
  let '(r, self', w') := log strftime level msg self w in
  r = Returned tt ∧
  w' = w1 ∧
  sl_buffer self' = add msg (sl_buffer self) ∧
  (capacity (sl_buffer self) = 0 ∨ last (buffer (sl_buffer self')) = Some msg) ∧
  queue (fallback self')
  = queue (fallback self)
    ++ ["[" +:+ strftime w1 +:+ "] " +:+
        ("[MAIN LOGGER ERROR: " +:+ exc_str e +:+ "] " +:+ msg)].
Proof.
  intros Hraise. unfold log. rewrite Hraise.
  cbn [sl_buffer fallback emit queue main_logger_error].
  repeat split; try done. apply add_last.
Qed.

(** C8. For every level and message, when the primary logger's [log]
    returns, [SafeLogger.log] returns and leaves the safe logger as it
    was: the fallback buffer is unchanged and nothing is put on the
    fallback handler's queue. *)
Theorem log_leaves_fallback_untouched (level msg : string)
    (self : SafeLogger) (w : W) (u : unit) (w1 : W) :
  main_logger self level msg w = (Returned u, w1) →
  let '(r, self', w') := log strftime level msg self w in
  r = Returned tt ∧
  w' = w1 ∧
  self' = self ∧
  buffer (sl_buffer self') = buffer (sl_buffer self) ∧
  queue (fallback self') = queue (fallback self).
Proof.
  intros Hreturn. unfold log. by rewrite Hreturn.
Qed.

(** *** Further properties of the safe logger *)

Lemma add_all_cons (m : string) (messages : list string) (b : BufferManager) :
  add_all (m :: messages) b = add_all messages (add m b).
Proof. done. Qed.



Lemma flush_loop_returning cb (snapshot : list string) (w : W) :
  (∀ m x, raised (fst (cb m x)) = false) →
  snd (flush_loop cb snapshot w) = foldl (λ x m, snd (cb m x)) w snapshot.
Proof.
  intros Hcb. revert w.
  induction snapshot as [|a l IH]; intros w; cbn; [done|].
  specialize (Hcb a w). destruct (cb a w) as [[u|e] w1]; [|done].
  specialize (IH w1). destruct (flush_loop cb l w1). by cbn in *.
Qed.

(** X9. When the primary logger accepts INFO records again, [recover]
    submits every buffered message to it, oldest first, each at level
    INFO whatever level it was logged at, empties the buffer and puts
    the completion marker on the fallback handler's queue. *)
Theorem recover_replays_buffer (self : SafeLogger) (w : W) :
  (∀ m x, raised (fst (main_logger self "INFO" m x)) = false) →
  let '(r, self', w') := recover strftime self w in
  r = Returned tt ∧
  buffer (sl_buffer self') = [] ∧
  w' = foldl (λ x m, snd (main_logger self "INFO" m x)) w
         (buffer (sl_buffer self)) ∧
  queue (fallback self')
  = queue (fallback self)
    ++ ["[" +:+ strftime w' +:+ "] " +:+
        "✅ Recovery complete — all buffered logs flushed."].
Proof.
  intros Hcb. unfold recover, flush.
  pose proof (flush_loop_returning (λ m, main_logger self "INFO" m)
                (buffer (sl_buffer self)) w Hcb) as H.
  destruct (flush_loop _ _ w) as [calls w1]. cbn in H. by subst.
Qed.

(** X10. When the primary logger still raises on the oldest buffered
    message, [recover] makes that one call and no other, and all the
    same returns normally, empties the buffer, so that every buffered
    message is lost, and puts the completion marker on the queue. *)
Theorem recover_after_failed_replay (self : SafeLogger) (w : W)
    (m : string) (rest : list string) (e : Exception) (w1 : W) :
  buffer (sl_buffer self) = m :: rest →
  main_logger self "INFO" m w = (Raised e, w1) →
  let '(r, self', w') := recover strftime self w in
  r = Returned tt ∧
  buffer (sl_buffer self') = [] ∧
  w' = w1 ∧
  fst (flush_loop (resubmit self) (buffer (sl_buffer self)) w)
  = [(m, Raised e)] ∧
  queue (fallback self')
  = queue (fallback self)
    ++ ["[" +:+ strftime w1 +:+ "] " +:+
        "✅ Recovery complete — all buffered logs flushed."].
Proof.
  intros Hb Hm. unfold recover, flush, resubmit. rewrite Hb. cbn [flush_loop].
  by rewrite Hm.
Qed.

(** X18. What a flush replays is what the buffer retained: after any
    sequence of additions to a new buffer of capacity [c], a flush whose
    callback does not raise calls it on the newest [c] messages (all of
    them if there are fewer), oldest first, on nothing else, and leaves
    the buffer empty. *)
Theorem flush_replays_what_was_retained cb (c : nat) (messages : list string)
    (w : W) :
  (∀ m x, raised (fst (cb m x)) = false) →
  let '(self', calls, w') :=
    flush cb (add_all messages (new_BufferManager c)) w in
  map fst calls = drop (length messages - c) messages ∧
  Forall returned_call calls ∧
  buffer self' = [] ∧
  w' = foldl (λ x m, snd (cb m x)) w (drop (length messages - c) messages).
Proof.
  intros Hcb. unfold flush. rewrite add_all_buffer.
  pose proof (flush_loop_all_returned cb (drop (length messages - c) messages)
                w Hcb) as Hall.
  pose proof (flush_loop_spec cb (drop (length messages - c) messages) w) as H.
  pose proof (flush_loop_returning cb (drop (length messages - c) messages)
                w Hcb) as Hw.
  destruct (flush_loop cb _ w) as [calls w1]. cbn in *.
  split; [|by split].
  destruct H as (_ & [[_ H]|(pre & m & e & -> & _)]); [done|].
  apply Forall_app in Hall as [_ Hall].
  inversion Hall as [|? ? Hbad _]. by cbv in Hbad.
Qed.

End Collaborators.

Section Sink.

Context {W : Type}.
Variable print : string → W → outcome unit * W.
Variable makedirs : string → W → outcome unit * W.
Variable append_to_file : string → string → W → outcome unit * W.
Variable stderr_write : string → W → W.

Lemma with_queue_same (self : FallbackHandler) :
  with_queue (queue self) self = self.
Proof. by destruct self. Qed.

Lemma with_queue_twice (q q' : list string) (self : FallbackHandler) :
  with_queue q (with_queue q' self) = with_queue q self.
Proof. done. Qed.

Lemma queue_get_item (timeout : Z) (m : string) (q : list string) :
  (0 ≤ timeout)%Z → queue_get timeout (m :: q) = Item m q.
Proof.
  intros Ht. unfold queue_get. by destruct (Z.ltb_spec timeout 0); [lia|].
Qed.

Lemma queue_get_empty (timeout : Z) :
  (0 ≤ timeout ≤ TIMEOUT_MAX)%Z → queue_get timeout [] = QueueEmpty.
Proof.
  intros [H0 H1]. unfold queue_get.
  destruct (Z.ltb_spec timeout 0); [lia|].
  by destruct (Z.ltb_spec TIMEOUT_MAX timeout); [lia|].
Qed.

(** X11. In "stdout" mode, with a [print] that does not raise, the
    handler writes the queued records in the order they were queued and
    loses none: [stop] prints every record left and returns with the
    queue empty; and, with a flush interval [queue.get] accepts as
    timeout, so do as many turns of the worker as there are records,
    further turns changing nothing. *)
Theorem handler_drains_in_order (self : FallbackHandler) (w : W) :
  mode self = "stdout" →
  (∀ m x, raised (fst (print m x)) = false) →
  stop print makedirs append_to_file self w
  = (Returned tt, with_queue [] self,
     foldl (λ x m, snd (print m x)) w (queue self)) ∧
  ((0 ≤ flush_interval self ≤ TIMEOUT_MAX)%Z →
   ∀ n, length (queue self) ≤ n →
        _worker print makedirs append_to_file stderr_write n self w
        = (with_queue [] self, foldl (λ x m, snd (print m x)) w (queue self))).
Proof.
  intros Hmode Hprint.
  assert (Hw : ∀ m q x, _write print makedirs append_to_file m (with_queue q self) x = print m x).
  { intros. unfold Fallback._write. cbn. by rewrite Hmode. }
  split.
  - unfold Fallback.stop.
    assert (H : ∀ q x, drain print makedirs append_to_file q self x
                = (Returned tt, [], foldl (λ x m, snd (print m x)) x q)).
    { induction q as [|m q IH]; intros x; cbn [drain foldl]; [done|].
      rewrite <- (with_queue_same self) at 1. rewrite Hw.
      specialize (Hprint m x). destruct (print m x) as [[u|e] x1]; [|done].
      apply IH. }
    by rewrite H.
  - intros Hinterval.
    assert (H : ∀ n q x, length q ≤ n →
              _worker print makedirs append_to_file stderr_write n
                (with_queue q self) x
              = (with_queue [] self, foldl (λ x m, snd (print m x)) x q)).
    { induction n as [|n IH]; intros q x Hn.
      - destruct q; [done|cbn in Hn; lia].
      - cbn [Fallback._worker]. unfold _worker_iteration.
        cbn [queue with_queue flush_interval]. destruct q as [|m q]; cbn [foldl].
        + rewrite queue_get_empty by done. apply (IH [] x). cbn. lia.
        + rewrite queue_get_item by lia. rewrite Hw. specialize (Hprint m x).
          destruct (print m x) as [[u|e] x1]; [|done].
          rewrite with_queue_twice. apply IH. cbn in Hn. lia. }
    intros n Hn. specialize (H n (queue self) w Hn).
    by rewrite with_queue_same in H.
Qed.

(** X12. In any other mode, with a backup file named without a
    directory (as the default "fallback.log", the only name a
    [SafeLogger] uses) and an [os.makedirs] that raises on the empty
    path, no record ever reaches the file: [stop] raises on the first
    record left, which is lost, the others staying queued; and, with a
    flush interval that is not negative, each turn of the worker takes a
    record off the queue, reports the error on the error stream and
    drops the record. *)
Theorem handler_cannot_write_beside_cwd (self : FallbackHandler) (w : W)
    (e : Exception) :
  String.eqb (mode self) "stdout" = false →
  dirname (backup_file self) = "" →
  (∀ x, makedirs "" x = (Raised e, x)) →
  ((0 ≤ flush_interval self)%Z →
   _worker print makedirs append_to_file stderr_write (length (queue self)) self w
   = (with_queue [] self,
      Nat.iter (length (queue self))
        (stderr_write ("[FALLBACK ERROR] " +:+ exc_str e +:+ newline)) w)) ∧
  stop print makedirs append_to_file self w
  = match queue self with
    | [] => (Returned tt, with_queue [] self, w)
    | _ :: rest => (Raised e, with_queue rest self, w)
    end.
Proof.
  intros Hmode Hdir Hmk.
  assert (Hw : ∀ m q x, _write print makedirs append_to_file m (with_queue q self) x = (Raised e, x)).
  { intros. unfold Fallback._write. cbn. by rewrite Hmode, Hdir, Hmk. }
  split.
  - intros Hinterval.
    assert (H : ∀ q x,
              _worker print makedirs append_to_file stderr_write (length q)
                (with_queue q self) x
              = (with_queue [] self,
                 Nat.iter (length q)
                   (stderr_write ("[FALLBACK ERROR] " +:+ exc_str e +:+ newline))
                   x)).
    { induction q as [|m q IH]; intros x; [done|].
      cbn [length Fallback._worker]. unfold _worker_iteration.
      cbn [queue with_queue flush_interval].
      rewrite queue_get_item by done.
      rewrite Hw, with_queue_twice, IH.
      f_equal. by rewrite Nat.iter_succ_r. }
    specialize (H (queue self) w). by rewrite with_queue_same in H.
  - unfold Fallback.stop. destruct (queue self) as [|m q] eqn:Hq; [done|].
    cbn [drain]. rewrite <- (with_queue_same self) at 1. by rewrite Hw.
Qed.

End Sink.

End FallbackSpec.

(** ** Examples on the fallback path *)

Module FallbackExamples.
Import Py Fallback FallbackSpec.

(** The example of the specification: a primary logger that always
    raises, [log("ERROR", "x")]. *)
Lemma log_absorbs_primary_failure_witness :
  let self := new_SafeLogger broken_logger "stdout" in
  main_logger self "ERROR" "x" [] = (Raised {| exc_str := "disk full" |}, []) ∧
  (let '(r, self', w') := log fixed_clock "ERROR" "x" self [] in
   r = Returned tt ∧
   w' = [] ∧
   sl_buffer self' = add "x" (sl_buffer self) ∧
   (capacity (sl_buffer self) = 0 ∨ last (buffer (sl_buffer self')) = Some "x") ∧
   queue (fallback self')
   = queue (fallback self)
     ++ ["[" +:+ fixed_clock [] +:+ "] " +:+
         ("[MAIN LOGGER ERROR: " +:+ exc_str {| exc_str := "disk full" |}
          +:+ "] " +:+ "x")]).
Proof.
  split; [reflexivity|].
  exact (log_absorbs_primary_failure fixed_clock "ERROR" "x"
           (new_SafeLogger broken_logger "stdout") []
           {| exc_str := "disk full" |} [] eq_refl).
Defined.

Example safe_logger_buffers_x :
  let '(r, self', _) :=
    log fixed_clock "ERROR" "x" (new_SafeLogger broken_logger "stdout") [] in
  r = Returned tt ∧
  buffer (sl_buffer self') = ["x"] ∧
  queue (fallback self')
  = ["[2024-01-01 00:00:00] [MAIN LOGGER ERROR: disk full] x"].
Proof. vm_compute. done. Qed.

Lemma log_leaves_fallback_untouched_witness :
  let self := new_SafeLogger list_logger "stdout" in
  main_logger self "INFO" "x" [] = (Returned tt, ["INFO x"]) ∧
  (let '(r, self', w') := log fixed_clock "INFO" "x" self [] in
   r = Returned tt ∧
   w' = ["INFO x"] ∧
   self' = self ∧
   buffer (sl_buffer self') = buffer (sl_buffer self) ∧
   queue (fallback self') = queue (fallback self)).
Proof.
  split; [reflexivity|].
  exact (log_leaves_fallback_untouched fixed_clock "INFO" "x"
           (new_SafeLogger list_logger "stdout") [] tt ["INFO x"] eq_refl).
Defined.

(** A flush whose callback raises on the second of three messages: two
    calls are made, the third message is dropped with the rest. *)
Example flush_stops_at_first_failure :
  let cb := λ (m : string) (w : list string),
              if String.eqb m "m2" then (Raised {| exc_str := "down" |}, w)
              else (Returned tt, w ++ [m]) in
  flush cb {| capacity := 3; buffer := ["m1"; "m2"; "m3"] |} []
  = ({| capacity := 3; buffer := [] |},
     [("m1", Returned tt); ("m2", Raised {| exc_str := "down" |})],
     ["m1"]).
Proof. reflexivity. Qed.


Lemma recover_replays_buffer_witness :
  (∀ m x, raised (fst (main_logger recovering_logger "INFO" m x)) = false) ∧
  (let '(r, self', w') := recover fixed_clock recovering_logger [] in
   r = Returned tt ∧
   buffer (sl_buffer self') = [] ∧
   w' = foldl (λ x m, snd (main_logger recovering_logger "INFO" m x)) []
          (buffer (sl_buffer recovering_logger)) ∧
   queue (fallback self')
   = queue (fallback recovering_logger)
     ++ ["[" +:+ fixed_clock w' +:+ "] " +:+
         "✅ Recovery complete — all buffered logs flushed."]).
Proof.
  split; [intros; reflexivity|].
  apply (recover_replays_buffer fixed_clock recovering_logger []).
  intros; reflexivity.
Defined.

Example recover_replays_at_info :
  let '(_, self', w') := recover fixed_clock recovering_logger [] in
  w' = ["INFO m1"; "INFO m2"] ∧ buffer (sl_buffer self') = [].
Proof. vm_compute. done. Qed.

Lemma recover_after_failed_replay_witness :
  buffer (sl_buffer failing_logger) = "m1" :: ["m2"] ∧
  main_logger failing_logger "INFO" "m1" []
  = (Raised {| exc_str := "disk full" |}, []) ∧
  (let '(r, self', w') := recover fixed_clock failing_logger [] in
   r = Returned tt ∧
   buffer (sl_buffer self') = [] ∧
   w' = [] ∧
   fst (flush_loop (resubmit failing_logger) (buffer (sl_buffer failing_logger)) [])
   = [("m1", Raised {| exc_str := "disk full" |})] ∧
   queue (fallback self')
   = queue (fallback failing_logger)
     ++ ["[" +:+ fixed_clock [] +:+ "] " +:+
         "✅ Recovery complete — all buffered logs flushed."]).
Proof.
  split; [reflexivity|]. split; [reflexivity|].
  apply (recover_after_failed_replay fixed_clock failing_logger [] "m1" ["m2"]
           {| exc_str := "disk full" |} []); reflexivity.
Defined.

Lemma handler_drains_in_order_witness :
  mode stdout_handler = "stdout" ∧
  (∀ m x, raised (fst (example_print m x)) = false) ∧
  (0 ≤ flush_interval stdout_handler ≤ TIMEOUT_MAX)%Z ∧
  stop example_print example_makedirs example_append stdout_handler []
  = (Returned tt, with_queue [] stdout_handler,
     foldl (λ x m, snd (example_print m x)) [] (queue stdout_handler)) ∧
  (∀ n, length (queue stdout_handler) ≤ n →
        _worker example_print example_makedirs example_append example_stderr
          n stdout_handler []
        = (with_queue [] stdout_handler,
           foldl (λ x m, snd (example_print m x)) [] (queue stdout_handler))).
Proof.
  assert (Hi : (0 ≤ flush_interval stdout_handler ≤ TIMEOUT_MAX)%Z)
    by (unfold TIMEOUT_MAX; cbn; lia).
  destruct (handler_drains_in_order example_print example_makedirs
              example_append example_stderr stdout_handler [] eq_refl
              (λ _ _, eq_refl)) as [Hstop Hworker].
  split; [reflexivity|]. split; [intros; reflexivity|].
  split; [exact Hi|]. split; [exact Hstop|exact (Hworker Hi)].
Defined.

(** Three turns of the worker on the two queued records, at the default
    flush interval of 5. *)
Example worker_prints_in_order :
  (0 ≤ flush_interval stdout_handler ≤ TIMEOUT_MAX)%Z ∧
  _worker example_print example_makedirs example_append example_stderr 3
    stdout_handler []
  = (with_queue [] stdout_handler,
     ["stdout: [2024-01-01 00:00:00] a"; "stdout: [2024-01-01 00:00:00] b"]).
Proof. split; [by vm_compute|reflexivity]. Qed.

(** With a negative flush interval [queue.get] raises on every turn:
    the worker reports it and never takes a record. *)
Example worker_with_negative_interval :
  _worker example_print example_makedirs example_append example_stderr 2
    {| mode := "stdout"; backup_file := "fallback.log"; queue := ["r1"];
       flush_interval := -1 |} []
  = ({| mode := "stdout"; backup_file := "fallback.log"; queue := ["r1"];
        flush_interval := -1 |},
     ["stderr: [FALLBACK ERROR] 'timeout' must be a non-negative number"
      +:+ newline;
      "stderr: [FALLBACK ERROR] 'timeout' must be a non-negative number"
      +:+ newline]).
Proof. reflexivity. Qed.

Example stop_prints_in_order :
  stop example_print example_makedirs example_append stdout_handler []
  = (Returned tt, with_queue [] stdout_handler,
     ["stdout: [2024-01-01 00:00:00] a"; "stdout: [2024-01-01 00:00:00] b"]).
Proof. reflexivity. Qed.

Lemma handler_cannot_write_beside_cwd_witness :
  String.eqb (mode file_handler) "stdout" = false ∧
  dirname (backup_file file_handler) = "" ∧
  (∀ x, example_makedirs "" x = (Raised no_such_directory, x)) ∧
  (0 ≤ flush_interval file_handler)%Z ∧
  _worker example_print example_makedirs example_append example_stderr
    (length (queue file_handler)) file_handler []
  = (with_queue [] file_handler,
     Nat.iter (length (queue file_handler))
       (example_stderr
          ("[FALLBACK ERROR] " +:+ exc_str no_such_directory +:+ newline))
       []) ∧
  stop example_print example_makedirs example_append file_handler []
  = match queue file_handler with
    | [] => (Returned tt, with_queue [] file_handler, [])
    | _ :: rest => (Raised no_such_directory, with_queue rest file_handler, [])
    end.
Proof.
  assert (Hi : (0 ≤ flush_interval file_handler)%Z) by (cbn; lia).
  destruct (handler_cannot_write_beside_cwd example_print example_makedirs
              example_append example_stderr file_handler [] no_such_directory
              eq_refl eq_refl (λ _, eq_refl)) as [Hworker Hstop].
  split; [reflexivity|]. split; [reflexivity|]. split; [intros; reflexivity|].
  split; [exact Hi|]. split; [exact (Hworker Hi)|exact Hstop].
Defined.

(** The worker of a safe logger built with fallback mode "file", at its
    flush interval of 5: both records are reported and dropped. *)
Example file_worker_drops_records :
  (0 ≤ flush_interval file_handler)%Z ∧
  queue (fst (_worker example_print example_makedirs example_append
                example_stderr 2 file_handler []))
  = [] ∧
  length (snd (_worker example_print example_makedirs example_append
                 example_stderr 2 file_handler []))
  = 2.
Proof. split; [by vm_compute|]. split; reflexivity. Qed.

(** With a directory in the name of the backup file, records reach it. *)
Example handler_writes_under_a_directory :
  fst (fst (stop example_print example_makedirs example_append
              {| mode := "file"; backup_file := "logs/fallback.log";
                 queue := ["r1"]; flush_interval := 5 |} []))
  = Returned tt.
Proof. reflexivity. Qed.

Lemma flush_replays_what_was_retained_witness :
  (∀ m x, raised (fst (list_logger "INFO" m x)) = false) ∧
  (let '(self', calls, w') :=
     flush (list_logger "INFO")
       (add_all ["m1"; "m2"; "m3"] (new_BufferManager 2)) [] in
   map fst calls = drop (length ["m1"; "m2"; "m3"] - 2) ["m1"; "m2"; "m3"] ∧
   Forall returned_call calls ∧
   buffer self' = [] ∧
   w' = foldl (λ x m, snd (list_logger "INFO" m x)) []
          (drop (length ["m1"; "m2"; "m3"] - 2) ["m1"; "m2"; "m3"])).
Proof.
  split; [intros; reflexivity|].
  apply (flush_replays_what_was_retained (list_logger "INFO") 2
           ["m1"; "m2"; "m3"] []).
  intros; reflexivity.
Defined.

End FallbackExamples.

(** ** The notification dispatcher and the retry policy *)

Module NotificationsSpec.
Import Py Notifications.

Section Channels.

Context {W : Type}.

Implicit Types (self : NotificationDispatcher W) (w : World W)
  (message : NotificationMessage) (targets : list (Channel W)).

(** The loop of [dispatch] calls [send] on every target in order and
    returns the conjunction of what it started with and every result. *)
Lemma send_all_spec targets message (success : bool) w :
  let '(oks, x) := send_each targets message (ext w) in
  send_all targets message success w
  = (success && forallb (λ ok, ok) oks,
     {| ext := x; trace := trace w ++ send_events targets message oks |}).
Proof.
  revert success w.
  induction targets as [|ch rest IH]; intros success w; cbn.
  - rewrite andb_true_r, app_nil_r. by destruct w.
  - destruct (send ch message (ext w)) as [ok x1] eqn:Hsend.
    specialize (IH (success && ok)
                  {| ext := x1;
                     trace := trace w ++ [Send (channel_str ch) message ok] |}).
    cbn [ext trace] in IH.
    destruct (send_each rest message x1) as [oks x2].
    rewrite IH. unfold send_events. cbn [zip_with forallb].
    by rewrite <- app_assoc, andb_assoc.
Qed.

Lemma send_each_length targets message (x : W) :
  length (fst (send_each targets message x)) = length targets.
Proof.
  revert x. induction targets as [|ch rest IH]; intros x; cbn; [done|].
  destruct (send ch message x) as [ok x1]. specialize (IH x1).
  destruct (send_each rest message x1). cbn in *. by rewrite IH.
Qed.

(** C5. For every message whose level has channels registered, one
    dispatch attempt calls [send] on every one of them, once, in
    registration order, whatever the earlier ones returned, and returns
    true exactly when every [send] returned true. *)
Theorem dispatch_attempts_all_channels self message targets w :
  channels self !! level message = Some targets →
  targets ≠ [] →
  let '(oks, x) := send_each targets message (ext w) in
  let '(r, w') := dispatch__wrapped__ self message w in
  length oks = length targets ∧
  trace w' = trace w ++ send_events targets message oks ∧
  sends (trace w') = sends (trace w) ++ zip (map channel_str targets) oks ∧
  ext w' = x ∧
  r = forallb (λ ok, ok) oks ∧
  (r = true ↔ Forall (λ ok, ok = true) oks).
Proof.
  intros Hlookup Hne.
  pose proof (send_all_spec targets message true w) as Hall.
  pose proof (send_each_length targets message (ext w)) as Hlen.
  assert (Hd : dispatch__wrapped__ self message w
               = send_all targets message true w).
  { unfold dispatch__wrapped__. rewrite Hlookup. cbn [default].
    by destruct targets. }
  rewrite Hd. clear Hd Hlookup Hne.
  destruct (send_each targets message (ext w)) as [oks x].
  rewrite Hall. cbn [fst] in Hlen. cbn [andb trace ext].
  split; [done|]. split; [done|]. split.
  { unfold sends, send_events. rewrite omap_app. f_equal.
    clear. revert oks.
    induction targets as [|c l IH]; intros [|ok oks]; cbn; try done.
    by rewrite IH. }
  split; [done|]. split; [done|].
  rewrite Forall_forall, forallb_forall.
  split; intros H b Hb; specialize (H b); [apply H|apply H];
    by apply list_elem_of_In.
Qed.

Lemma calls_record_event (e : event) w :
  calls (trace (record_event e w))
  = calls (trace w) ++ match e with Call _ ok => [ok] | _ => [] end.
Proof. unfold calls. cbn. rewrite omap_app. by destruct e. Qed.

Lemma calls_send_events targets message (oks : list bool) :
  calls (send_events targets message oks) = [].
Proof.
  revert oks. induction targets as [|ch rest IH]; intros [|ok oks]; cbn; try done.
  apply IH.
Qed.

(** One dispatch attempt makes no [Call] event of its own. *)
Lemma dispatch__wrapped___calls self message w :
  calls (trace (snd (dispatch__wrapped__ self message w))) = calls (trace w).
Proof.
  unfold dispatch__wrapped__.
  destruct (default [] (channels self !! level message)) as [|ch rest].
  - cbn [snd]. unfold logger_call. rewrite calls_record_event.
    by rewrite app_nil_r.
  - pose proof (send_all_spec (ch :: rest) message true w) as H.
    destruct (send_each (ch :: rest) message (ext w)) as [oks x].
    rewrite H. cbn [snd trace]. unfold calls at 1. rewrite omap_app.
    fold (calls (trace w)). fold (calls (send_events (ch :: rest) message oks)).
    by rewrite calls_send_events, app_nil_r.
Qed.

Lemma sleep_valid (delay : Z) w :
  (0 ≤ delay ≤ SLEEP_MAX)%Z →
  sleep delay w = (Returned tt, record_event (Sleep delay) w).
Proof.
  intros [H0 H1]. unfold sleep.
  destruct (Z.ltb_spec delay (- SLEEP_MAX)) as [Hlow|_];
    [unfold SLEEP_MAX in *; lia|].
  destruct (Z.ltb_spec SLEEP_MAX delay) as [Hhigh|_]; [lia|]. cbn.
  by destruct (Z.ltb_spec delay 0) as [Hneg|_]; [lia|].
Qed.

Lemma three_is_a_valid_delay : (0 ≤ 3 ≤ SLEEP_MAX)%Z.
Proof. unfold SLEEP_MAX. lia. Qed.

(** The three ways a turn of the wrapper's loop goes. *)
Lemma retry_loop_exhausted (func : World W → bool * World W) (delay attempt : Z) w :
  retry_loop func delay 0 attempt w
  = (Returned false,
     logger_call "notifications.retry" "ERROR"
       "Notification failed after retries" [] w).
Proof. done. Qed.

Lemma retry_loop_succeeded (func : World W → bool * World W) (delay : Z)
    (n : nat) (attempt : Z) w x :
  func w = (true, x) →
  retry_loop func delay (S n) attempt w
  = (Returned true, record_event (Call attempt true) x).
Proof. intros Hf. cbn [retry_loop]. by rewrite Hf. Qed.

Lemma retry_loop_failed (func : World W → bool * World W) (delay : Z)
    (n : nat) (attempt : Z) w x :
  (0 ≤ delay ≤ SLEEP_MAX)%Z →
  func w = (false, x) →
  retry_loop func delay (S n) attempt w
  = retry_loop func delay n (attempt + 1)%Z (after_failed_attempt delay attempt x).
Proof.
  intros Hd Hf. cbn [retry_loop]. rewrite Hf. by rewrite (sleep_valid delay _ Hd).
Qed.

(** The loop of the retry wrapper: it invokes the function on the world
    at hand, and again on what each failed attempt left, until an
    invocation returns true or [n] have returned false. *)
Lemma retry_loop_spec (func : World W → bool * World W) (delay : Z) (n : nat)
    (attempt : Z) w :
  (0 ≤ delay ≤ SLEEP_MAX)%Z →
  let '(r, w') := retry_loop func delay n attempt w in
  ∃ k wk,
    failed_attempts func delay k attempt w wk ∧
    ((r = Returned true ∧ k < n ∧
      ∃ x, func wk = (true, x) ∧
           w' = record_event (Call (attempt + Z.of_nat k) true) x) ∨
     (r = Returned false ∧ k = n ∧
      w' = logger_call "notifications.retry" "ERROR"
             "Notification failed after retries" [] wk)).
Proof.
  intros Hd. revert attempt w.
  induction n as [|n IH]; intros attempt w.
  - rewrite retry_loop_exhausted. exists 0, w. split; [done|]. by right.
  - destruct (func w) as [[|] x] eqn:Hf.
    + rewrite (retry_loop_succeeded func delay n attempt w x Hf).
      exists 0, w. split; [done|]. left. split; [done|]. split; [lia|].
      exists x. by rewrite Z.add_0_r.
    + rewrite (retry_loop_failed func delay n attempt w x Hd Hf).
      specialize (IH (attempt + 1)%Z (after_failed_attempt delay attempt x)).
      destruct (retry_loop _ _ _ _ _) as [r w'].
      destruct IH as (k & wk & Hchain & Hcase).
      exists (S k), wk. split; [by exists x|].
      destruct Hcase as [(-> & Hk & y & Hy & ->)|(-> & -> & ->)].
      * left. split; [done|]. split; [lia|]. exists y. split; [done|].
        do 2 f_equal. lia.
      * by right.
Qed.

(** C6. With a delay [time.sleep] accepts, the retry wrapper invokes
    the wrapped function at most [retries] times, each time on what the
    attempt before left: [k] invocations in a row return false, each
    followed by the retry warning and the delay; then either a further
    invocation, the [k+1]-th with [k < retries], returns true and the
    wrapper returns true, or [k = retries] and the wrapper logs the
    final error and returns false. So it returns true exactly when some
    attempt succeeded and false exactly after [retries] failed attempts.
    With 3 attempts and one channel whose [send] returns false, false,
    true, [dispatch] returns true after the third attempt, the channel
    having been invoked 3 times, with a delay of 3 after each failed
    attempt. *)
Theorem with_retry_attempts (retries delay : Z)
    (func : World W → bool * World W) w :
  (0 ≤ delay ≤ SLEEP_MAX)%Z →
  (let '(r, w') := with_retry retries delay func w in
   ∃ k wk,
     failed_attempts func delay k 1 w wk ∧
     k ≤ Z.to_nat retries ∧
     ((r = Returned true ∧ k < Z.to_nat retries ∧
       ∃ x, func wk = (true, x) ∧
            w' = record_event (Call (1 + Z.of_nat k) true) x) ∨
      (r = Returned false ∧ k = Z.to_nat retries ∧
       w' = logger_call "notifications.retry" "ERROR"
              "Notification failed after retries" [] wk))) ∧
  (let '(r, w') := dispatch one_flaky_channel alert start in
   r = Returned true ∧
   sends (trace w') = [("flaky", false); ("flaky", false); ("flaky", true)] ∧
   calls (trace w') = [false; false; true] ∧
   sleeps (trace w') = [3; 3]%Z ∧
   ext w' = 3).
Proof.
  intros Hd. split; [|by vm_compute].
  unfold with_retry.
  pose proof (retry_loop_spec func delay (Z.to_nat retries) 1 w Hd) as H.
  destruct (retry_loop _ _ _ _ _) as [r w'].
  destruct H as (k & wk & Hchain & Hcase).
  exists k, wk. split; [done|].
  destruct Hcase as [(Hr & Hk & Hx)|(Hr & Hk & Hw)].
  - split; [lia|]. by left.
  - split; [lia|]. by right.
Qed.

(** C1 (as amended). For every message whose level has no channel, one
    dispatch attempt logs a warning and returns false without calling a
    channel; [dispatch] treats this like any other failed attempt: it
    makes 3 attempts, each followed by a retry warning and a delay of 3,
    then logs the final error and returns false. *)
Theorem dispatch_without_channels self message w :
  default [] (channels self !! level message) = [] →
  dispatch__wrapped__ self message w
  = (false,
     logger_call "notifications.dispatcher" "WARN"
       "No channels registered for level" [("level", FStr (level message))] w) ∧
  dispatch self message w
  = (Returned false,
     {| ext := ext w; trace := trace w ++ no_channel_trace (level message) |}).
Proof.
  intros Hnone.
  assert (Hd : ∀ x, dispatch__wrapped__ self message x
               = (false,
                  logger_call "notifications.dispatcher" "WARN"
                    "No channels registered for level"
                    [("level", FStr (level message))] x)).
  { intros x. unfold dispatch__wrapped__. by rewrite Hnone. }
  split; [apply Hd|].
  unfold dispatch, with_retry.
  change (Z.to_nat 3) with 3.
  rewrite !(retry_loop_failed _ _ _ _ _ _ three_is_a_valid_delay (Hd _)).
  rewrite retry_loop_exhausted.
  unfold after_failed_attempt, logger_call, record_event, no_channel_trace,
    no_channel_attempt.
  cbn [ext trace]. f_equal. f_equal.
  by rewrite <- !app_assoc.
Qed.

(** Registering appends to the level's list, created empty when the
    level had none, and touches no other level. *)
Lemma register_channel_spec (lvl : string) (channel : Channel W) self w :
  let '(r, self', w') := register_channel lvl channel self w in
  r = Returned tt ∧
  channels self' !! lvl
  = Some (default [] (channels self !! lvl) ++ [channel]) ∧
  delete lvl (channels self') = delete lvl (channels self) ∧
  ext w' = ext w.
Proof.
  unfold register_channel.
  destruct (channels self !! lvl) as [l|] eqn:Hl.
  - rewrite Hl. cbn. by rewrite lookup_insert_eq, delete_insert_eq.
  - rewrite lookup_insert_eq. cbn.
    by rewrite lookup_insert_eq, !delete_insert_eq.
Qed.

Lemma register_channel_keeps_keys (lvl other : string) (channel : Channel W)
    self w :
  is_Some (channels self !! other) →
  is_Some (channels (snd (fst (register_channel lvl channel self w))) !! other).
Proof.
  intros Hsome.
  pose proof (register_channel_spec lvl channel self w) as H.
  destruct (register_channel lvl channel self w) as [[r self'] w'].
  destruct H as (_ & Hl & Hd & _). cbn.
  destruct (decide (lvl = other)) as [->|Hne]; [by rewrite Hl|].
  apply (f_equal (λ m, m !! other)) in Hd.
  by rewrite !lookup_delete_ne in Hd by done; rewrite Hd.
Qed.

Lemma register_all_keeps_keys (registrations : list (string * Channel W))
    (other : string) self w :
  is_Some (channels self !! other) →
  is_Some (channels (fst (register_all registrations self w)) !! other).
Proof.
  revert self w.
  induction registrations as [|[lvl ch] rest IH]; intros self w Hsome; [done|].
  cbn [register_all].
  pose proof (register_channel_keeps_keys lvl other ch self w Hsome) as H.
  destruct (register_channel lvl ch self w) as [[r self1] w1].
  by apply IH.
Qed.

(** C9. [register_channel] returns without raising for every level
    string; afterwards the level's list is its former list, or the empty
    list when the level had none, with the channel appended at the end,
    and the lists of all other levels are unchanged. On a dispatcher
    built by the constructor and any registrations, each of the four
    predefined levels has a list, so the channel is appended to it. *)
Theorem register_channel_appends :
  (∀ (lvl : string) (channel : Channel W) self w,
     let '(r, self', w') := register_channel lvl channel self w in
     r = Returned tt ∧
     channels self' !! lvl
     = Some (default [] (channels self !! lvl) ++ [channel]) ∧
     delete lvl (channels self') = delete lvl (channels self)) ∧
  (∀ (registrations : list (string * Channel W)) (channel : Channel W) w0 w,
     let self := fst (register_all registrations new_NotificationDispatcher w0) in
     Forall (λ lvl,
       ∃ l, channels self !! lvl = Some l ∧
            channels (snd (fst (register_channel lvl channel self w))) !! lvl
            = Some (l ++ [channel]))
       ["INFO"; "WARN"; "ALERT"; "ERROR"]).
Proof.
  split.
  - intros lvl channel self w.
    pose proof (register_channel_spec lvl channel self w) as H.
    destruct (register_channel lvl channel self w) as [[r self'] w'].
    by destruct H as (? & ? & ? & _).
  - intros registrations channel w0 w self.
    assert (Hkeys : ∀ lvl, lvl ∈ ["INFO"; "WARN"; "ALERT"; "ERROR"] →
              is_Some (channels self !! lvl)).
    { intros lvl Hin. apply register_all_keeps_keys.
      repeat (apply elem_of_cons in Hin as [->|Hin]; [by eexists|]).
      by apply elem_of_nil in Hin. }
    apply Forall_forall. intros lvl Hin.
    destruct (Hkeys lvl Hin) as [l Hl]. exists l. split; [done|].
    pose proof (register_channel_spec lvl channel self w) as H.
    destruct (register_channel lvl channel self w) as [[r self'] w'].
    destruct H as (_ & H & _). cbn. by rewrite H, Hl.
Qed.

(** *** Further properties of the dispatcher *)

(** X13. Registrations accumulate in order: after any sequence of
    [register_channel] calls, the list of a level is the list it had
    (empty if it had none) followed by the channels registered for that
    level, in registration order, a channel registered twice being
    there twice. *)
Theorem register_all_keeps_registration_order
    (registrations : list (string * Channel W)) self w (lvl : string) :
  default [] (channels (fst (register_all registrations self w)) !! lvl)
  = default [] (channels self !! lvl) ++ registered_for lvl registrations.
Proof.
  revert self w.
  induction registrations as [|[l c] rest IH]; intros self w.
  - cbn. by rewrite app_nil_r.
  - cbn [register_all].
    pose proof (register_channel_spec l c self w) as H.
    destruct (register_channel l c self w) as [[r self1] w1].
    destruct H as (_ & Hl & Hd & _).
    rewrite IH. unfold registered_for. rewrite filter_cons. cbn [fst].
    destruct (decide (l = lvl)) as [->|Hne].
    + rewrite Hl. cbn. by rewrite <- app_assoc.
    + apply (f_equal (λ m, m !! lvl)) in Hd.
      rewrite !lookup_delete_ne in Hd by done. by rewrite Hd.
Qed.

Lemma sends_app (t1 t2 : list event) : sends (t1 ++ t2) = sends t1 ++ sends t2.
Proof. apply omap_app. Qed.

Lemma sleeps_app (t1 t2 : list event) :
  sleeps (t1 ++ t2) = sleeps t1 ++ sleeps t2.
Proof. apply omap_app. Qed.

Lemma sleeps_send_events targets message (oks : list bool) :
  sleeps (send_events targets message oks) = [].
Proof.
  revert oks. induction targets as [|ch rest IH]; intros [|ok oks]; cbn; try done.
  apply IH.
Qed.

Lemma sends_send_events targets message (oks : list bool) :
  length oks = length targets →
  (sends (send_events targets message oks)).*1 = channel_str <$> targets.
Proof.
  revert oks. induction targets as [|ch rest IH]; intros [|ok oks] Hlen;
    cbn in *; try done.
  f_equal. apply IH. lia.
Qed.

(** One dispatch attempt sleeps nowhere. *)
Lemma dispatch__wrapped___sleeps self message w :
  sleeps (trace (snd (dispatch__wrapped__ self message w))) = sleeps (trace w).
Proof.
  unfold dispatch__wrapped__.
  destruct (default [] (channels self !! level message)) as [|ch rest].
  - cbn. rewrite sleeps_app. cbn. by rewrite app_nil_r.
  - pose proof (send_all_spec (ch :: rest) message true w) as H.
    destruct (send_each (ch :: rest) message (ext w)) as [oks x].
    rewrite H. cbn [snd trace].
    by rewrite sleeps_app, sleeps_send_events, app_nil_r.
Qed.

Lemma send_each_all_true targets message (x : W) :
  Forall (λ ch, ∀ m y, fst (send ch m y) = true) targets →
  fst (send_each targets message x) = repeat true (length targets).
Proof.
  intros Hall. revert x.
  induction Hall as [|ch rest Hch _ IH]; intros x; cbn; [done|].
  specialize (Hch message x). destruct (send ch message x) as [ok x1].
  specialize (IH x1). destruct (send_each rest message x1) as [oks x2].
  cbn in *. by subst.
Qed.

Lemma send_each_some_false targets message (x : W) :
  Exists (λ ch, ∀ m y, fst (send ch m y) = false) targets →
  forallb (λ ok, ok) (fst (send_each targets message x)) = false.
Proof.
  intros Hex. revert x.
  induction Hex as [ch rest Hch|ch rest _ IH]; intros x; cbn.
  - specialize (Hch message x). destruct (send ch message x) as [ok x1].
    destruct (send_each rest message x1) as [oks x2]. cbn in *. by subst.
  - destruct (send ch message x) as [ok x1].
    specialize (IH x1). destruct (send_each rest message x1) as [oks x2].
    cbn in *. rewrite IH. apply andb_false_r.
Qed.

(** X14. When every channel of the message's level returns true,
    [dispatch] returns true after a single round: each channel is sent
    to once, in registration order, nothing is retried and nothing is
    slept. *)
Theorem dispatch_succeeds_in_one_round self message targets w :
  channels self !! level message = Some targets →
  targets ≠ [] →
  Forall (λ ch, ∀ m y, fst (send ch m y) = true) targets →
  let '(r, w') := dispatch self message w in
  r = Returned true ∧
  trace w'
  = trace w ++ send_events targets message (repeat true (length targets))
    ++ [Call 1 true] ∧
  sleeps (trace w') = sleeps (trace w) ∧
  ext w' = snd (send_each targets message (ext w)).
Proof.
  intros Hlookup Hne Hall.
  assert (Hd : dispatch__wrapped__ self message w
               = send_all targets message true w).
  { unfold dispatch__wrapped__. rewrite Hlookup. cbn [default].
    by destruct targets. }
  pose proof (send_all_spec targets message true w) as Hs.
  pose proof (send_each_all_true targets message (ext w) Hall) as Ht.
  destruct (send_each targets message (ext w)) as [oks x]. cbn in Ht. subst oks.
  assert (Hf : forallb (λ ok : bool, ok) (repeat true (length targets)) = true).
  { clear. induction (length targets); [done|]. by cbn. }
  rewrite Hs, Hf in Hd. cbn [andb] in Hd.
  unfold dispatch, with_retry. change (Z.to_nat 3) with 3.
  rewrite (retry_loop_succeeded _ _ _ _ _ _ Hd). cbn.
  split; [done|]. split; [by rewrite <- app_assoc|]. split; [|done].
  by rewrite !sleeps_app, sleeps_send_events, !app_nil_r.
Qed.

Lemma sends_logger_call (component severity message : string)
    (fields : list (string * field)) w :
  sends (trace (logger_call component severity message fields w))
  = sends (trace w).
Proof. unfold logger_call. cbn. rewrite sends_app. cbn. apply app_nil_r. Qed.

Lemma sleeps_logger_call (component severity message : string)
    (fields : list (string * field)) w :
  sleeps (trace (logger_call component severity message fields w))
  = sleeps (trace w).
Proof. unfold logger_call. cbn. rewrite sleeps_app. cbn. apply app_nil_r. Qed.

(** What one failed round leaves behind. *)
Lemma failed_round self message targets w (attempt : Z) :
  channels self !! level message = Some targets →
  Exists (λ ch, ∀ m y, fst (send ch m y) = false) targets →
  ∃ w1,
    dispatch__wrapped__ self message w = (false, w1) ∧
    (sends (trace (after_failed_attempt 3 attempt w1))).*1
    = (sends (trace w)).*1 ++ (channel_str <$> targets) ∧
    sleeps (trace (after_failed_attempt 3 attempt w1))
    = sleeps (trace w) ++ [3%Z].
Proof.
  intros Hlookup Hex.
  assert (Hne : targets ≠ []) by (intros ->; inversion Hex).
  assert (Hd : dispatch__wrapped__ self message w
               = send_all targets message true w).
  { unfold dispatch__wrapped__. rewrite Hlookup. cbn [default].
    by destruct targets. }
  pose proof (send_all_spec targets message true w) as Hs.
  pose proof (send_each_some_false targets message (ext w) Hex) as Hf.
  pose proof (send_each_length targets message (ext w)) as Hlen.
  destruct (send_each targets message (ext w)) as [oks x]. cbn in Hf, Hlen.
  rewrite Hd, Hs, Hf. cbn [andb]. eexists. split; [done|].
  unfold after_failed_attempt, logger_call, record_event. cbn [trace].
  rewrite !sends_app, !sleeps_app, sleeps_send_events. cbn.
  rewrite !app_nil_r, fmap_app, sends_send_events by done. done.
Qed.

(** X15. When some channel of the message's level returns false on
    every call, [dispatch] returns false after three whole rounds: every
    channel of the level, the ones that returned true included, is sent
    to three times, and a delay of 3 follows each round, the last one
    too. *)
Theorem dispatch_resends_to_every_channel self message targets w :
  channels self !! level message = Some targets →
  Exists (λ ch, ∀ m y, fst (send ch m y) = false) targets →
  let '(r, w') := dispatch self message w in
  r = Returned false ∧
  (sends (trace w')).*1
  = (sends (trace w)).*1 ++ (channel_str <$> targets)
    ++ (channel_str <$> targets) ++ (channel_str <$> targets) ∧
  sleeps (trace w') = sleeps (trace w) ++ [3; 3; 3]%Z.
Proof.
  intros Hlookup Hex.
  unfold dispatch, with_retry. change (Z.to_nat 3) with 3.
  destruct (failed_round self message targets w 1 Hlookup Hex)
    as (w1 & Hf1 & Hs1 & Hz1).
  rewrite (retry_loop_failed _ _ _ _ _ _ three_is_a_valid_delay Hf1).
  destruct (failed_round self message targets (after_failed_attempt 3 1 w1)
              (1 + 1) Hlookup Hex) as (w2 & Hf2 & Hs2 & Hz2).
  rewrite (retry_loop_failed _ _ _ _ _ _ three_is_a_valid_delay Hf2).
  destruct (failed_round self message targets
              (after_failed_attempt 3 (1 + 1) w2) (1 + 1 + 1) Hlookup Hex)
    as (w3 & Hf3 & Hs3 & Hz3).
  rewrite (retry_loop_failed _ _ _ _ _ _ three_is_a_valid_delay Hf3).
  rewrite retry_loop_exhausted.
  split; [done|].
  rewrite sends_logger_call, sleeps_logger_call, Hs3, Hs2, Hs1, Hz3, Hz2, Hz1.
  by rewrite <- !app_assoc.
Qed.

Lemma sleeps_record_event (e : event) w :
  sleeps (trace (record_event e w))
  = sleeps (trace w) ++ match e with Sleep d => [d] | _ => [] end.
Proof. unfold sleeps. cbn. rewrite omap_app. by destruct e. Qed.

Lemma sleeps_after_failed_attempt (delay attempt : Z) (x : World W) :
  sleeps (trace (after_failed_attempt delay attempt x))
  = sleeps (trace x) ++ [delay].
Proof.
  unfold after_failed_attempt, logger_call.
  by rewrite !sleeps_record_event, !app_nil_r.
Qed.

Lemma failed_attempts_sleeps (func : World W → bool * World W) (delay : Z)
    (k : nat) (attempt : Z) w wk :
  (∀ x, sleeps (trace (snd (func x))) = sleeps (trace x)) →
  failed_attempts func delay k attempt w wk →
  sleeps (trace wk) = sleeps (trace w) ++ repeat delay k.
Proof.
  intros Hsleeps. revert attempt w.
  induction k as [|k IH]; intros attempt w; cbn [failed_attempts].
  - intros ->. by rewrite app_nil_r.
  - intros (x & Hx & Hchain). rewrite (IH _ _ Hchain).
    rewrite sleeps_after_failed_attempt.
    pose proof (Hsleeps w) as Hw. rewrite Hx in Hw. cbn in Hw. rewrite Hw.
    by rewrite <- app_assoc.
Qed.

(** X16. With a delay [time.sleep] accepts, the retry wrapper sleeps
    after every invocation that returned false, the last one included:
    when it gives up after [retries] failed invocations it has slept
    [retries] times, and when it returns true after [k] failed
    invocations it has slept [k] times. (The wrapped function is any
    that, like a dispatch attempt, does not sleep itself.) *)
Theorem with_retry_sleeps_after_every_failure (retries delay : Z)
    (func : World W → bool * World W) w :
  (0 ≤ delay ≤ SLEEP_MAX)%Z →
  (∀ x, sleeps (trace (snd (func x))) = sleeps (trace x)) →
  let '(r, w') := with_retry retries delay func w in
  ∃ k wk,
    failed_attempts func delay k 1 w wk ∧
    ((r = Returned true ∧ k < Z.to_nat retries ∧ ∃ x, func wk = (true, x)) ∨
     (r = Returned false ∧ k = Z.to_nat retries)) ∧
    sleeps (trace w') = sleeps (trace w) ++ repeat delay k.
Proof.
  intros Hd Hsleeps. unfold with_retry.
  pose proof (retry_loop_spec func delay (Z.to_nat retries) 1 w Hd) as H.
  destruct (retry_loop _ _ _ _ _) as [r w'].
  destruct H as (k & wk & Hchain & Hcase).
  pose proof (failed_attempts_sleeps func delay k 1 w wk Hsleeps Hchain) as Hz.
  exists k, wk. split; [done|].
  destruct Hcase as [(-> & Hk & x & Hx & ->)|(-> & -> & ->)].
  - split; [left; eauto|].
    rewrite sleeps_record_event, app_nil_r.
    pose proof (Hsleeps wk) as Hw. rewrite Hx in Hw. cbn in Hw.
    by rewrite Hw.
  - split; [by right|].
    unfold logger_call. by rewrite sleeps_record_event, app_nil_r.
Qed.

End Channels.

End NotificationsSpec.

(** ** Examples on the dispatcher *)

Module NotificationsExamples.
Import Py Notifications NotificationsSpec.

(** C1, as stated, fails on a dispatcher without channels for "ALERT":
    [dispatch] returns false only after three attempts and three delays
    of 3. *)
Lemma dispatch_without_channels_retries :
  let '(r, w') := dispatch new_NotificationDispatcher alert start in
  r = Returned false ∧
  calls (trace w') = [false; false; false] ∧
  sleeps (trace w') = [3; 3; 3]%Z ∧
  sleeps (trace w') ≠ [].
Proof. vm_compute. repeat split; congruence. Qed.

Lemma dispatch_without_channels_witness :
  default [] (channels (new_NotificationDispatcher (W:=nat)) !! level alert) = [] ∧
  dispatch__wrapped__ new_NotificationDispatcher alert start
  = (false,
     logger_call "notifications.dispatcher" "WARN"
       "No channels registered for level" [("level", FStr (level alert))] start) ∧
  dispatch new_NotificationDispatcher alert start
  = (Returned false,
     {| ext := ext start;
        trace := trace start ++ no_channel_trace (level alert) |}).
Proof.
  split; [reflexivity|].
  apply (dispatch_without_channels new_NotificationDispatcher alert start).
  reflexivity.
Defined.

(** The example of the specification: two channels for "ALERT", the
    first failing and the second succeeding. *)
Lemma dispatch_attempts_all_channels_witness :
  channels two_channels !! level alert
  = Some [failing_channel; working_channel] ∧
  [failing_channel; working_channel] ≠ [] ∧
  (let '(oks, x) :=
     send_each [failing_channel; working_channel] alert (ext start) in
   let '(r, w') := dispatch__wrapped__ two_channels alert start in
   length oks = length [failing_channel; working_channel] ∧
   trace w' = trace start
              ++ send_events [failing_channel; working_channel] alert oks ∧
   sends (trace w')
   = sends (trace start)
     ++ zip (map channel_str [failing_channel; working_channel]) oks ∧
   ext w' = x ∧
   r = forallb (λ ok, ok) oks ∧
   (r = true ↔ Forall (λ ok, ok = true) oks)).
Proof.
  split; [reflexivity|]. split; [discriminate|].
  apply (dispatch_attempts_all_channels two_channels alert
           [failing_channel; working_channel] start);
    [reflexivity|discriminate].
Defined.

Example both_channels_called :
  let '(r, w') := dispatch__wrapped__ two_channels alert start in
  r = false ∧
  sends (trace w') = [("first", false); ("second", true)] ∧
  ext w' = 2.
Proof. vm_compute. done. Qed.

(** [dispatch] on the channel that fails twice and then succeeds. *)
Lemma with_retry_attempts_witness :
  (0 ≤ 3 ≤ SLEEP_MAX)%Z ∧
  (let '(r, w') :=
     with_retry 3 3 (dispatch__wrapped__ one_flaky_channel alert) start in
   ∃ k wk,
     failed_attempts (dispatch__wrapped__ one_flaky_channel alert) 3 k 1
       start wk ∧
     k ≤ Z.to_nat 3 ∧
     ((r = Returned true ∧ k < Z.to_nat 3 ∧
       ∃ x, dispatch__wrapped__ one_flaky_channel alert wk = (true, x) ∧
            w' = record_event (Call (1 + Z.of_nat k) true) x) ∨
      (r = Returned false ∧ k = Z.to_nat 3 ∧
       w' = logger_call "notifications.retry" "ERROR"
              "Notification failed after retries" [] wk))) ∧
  (let '(r, w') := dispatch one_flaky_channel alert start in
   r = Returned true ∧
   sends (trace w') = [("flaky", false); ("flaky", false); ("flaky", true)] ∧
   calls (trace w') = [false; false; true] ∧
   sleeps (trace w') = [3; 3]%Z ∧
   ext w' = 3).
Proof.
  assert (H : (0 ≤ 3 ≤ SLEEP_MAX)%Z) by (unfold SLEEP_MAX; lia).
  split; [exact H|].
  apply (with_retry_attempts 3 3
           (dispatch__wrapped__ one_flaky_channel alert) start H).
Defined.

(** A negative delay: [time.sleep] raises after the first failed
    attempt, and the exception leaves the wrapper; the second channel
    round never happens. *)
Example negative_delay_raises :
  let '(r, w') :=
    with_retry 3 (-1) (dispatch__wrapped__ two_channels alert) start in
  r = Raised {| exc_str := "sleep length must be non-negative" |} ∧
  sends (trace w') = [("first", false); ("second", true)] ∧
  sleeps (trace w') = [].
Proof. vm_compute. done. Qed.

(** Registering for a level the constructor did not create. *)
Example register_new_level :
  let '(r, self', _) :=
    register_channel "CRITICAL" working_channel new_NotificationDispatcher start in
  r = Returned tt ∧
  map channel_str <$> channels self' !! "CRITICAL" = Some ["second"] ∧
  map channel_str <$> channels self' !! "ALERT" = Some [].
Proof. vm_compute. done. Qed.

Lemma dispatch_succeeds_in_one_round_witness :
  channels one_working_channel !! level alert = Some [working_channel] ∧
  [working_channel] ≠ [] ∧
  Forall (λ ch : Channel nat, ∀ m y, fst (send ch m y) = true) [working_channel] ∧
  (let '(r, w') := dispatch one_working_channel alert start in
   r = Returned true ∧
   trace w'
   = trace start
     ++ send_events [working_channel] alert
          (repeat true (length [working_channel]))
     ++ [Call 1 true] ∧
   sleeps (trace w') = sleeps (trace start) ∧
   ext w' = snd (send_each [working_channel] alert (ext start))).
Proof.
  assert (H : Forall (λ ch : Channel nat, ∀ m y, fst (send ch m y) = true)
                [working_channel]).
  { constructor; [intros; reflexivity|constructor]. }
  split; [reflexivity|]. split; [discriminate|]. split; [exact H|].
  apply (dispatch_succeeds_in_one_round one_working_channel alert
           [working_channel] start); [reflexivity|discriminate|exact H].
Defined.

Lemma dispatch_resends_to_every_channel_witness :
  channels two_channels !! level alert
  = Some [failing_channel; working_channel] ∧
  Exists (λ ch : Channel nat, ∀ m y, fst (send ch m y) = false)
    [failing_channel; working_channel] ∧
  (let '(r, w') := dispatch two_channels alert start in
   r = Returned false ∧
   (sends (trace w')).*1
   = (sends (trace start)).*1
     ++ (channel_str <$> [failing_channel; working_channel])
     ++ (channel_str <$> [failing_channel; working_channel])
     ++ (channel_str <$> [failing_channel; working_channel]) ∧
   sleeps (trace w') = sleeps (trace start) ++ [3; 3; 3]%Z).
Proof.
  assert (H : Exists (λ ch : Channel nat, ∀ m y, fst (send ch m y) = false)
                [failing_channel; working_channel]).
  { apply Exists_cons_hd. intros; reflexivity. }
  split; [reflexivity|]. split; [exact H|].
  apply (dispatch_resends_to_every_channel two_channels alert
           [failing_channel; working_channel] start); [reflexivity|exact H].
Defined.

Example working_channel_gets_three_copies :
  let '(r, w') := dispatch two_channels alert start in
  r = Returned false ∧
  sends (trace w')
  = [("first", false); ("second", true); ("first", false); ("second", true);
     ("first", false); ("second", true)].
Proof. vm_compute. done. Qed.

Lemma with_retry_sleeps_after_every_failure_witness :
  (0 ≤ 7 ≤ SLEEP_MAX)%Z ∧
  (∀ x, sleeps (trace (snd (dispatch__wrapped__ two_channels alert x)))
        = sleeps (trace x)) ∧
  (let '(r, w') :=
     with_retry 2 7 (dispatch__wrapped__ two_channels alert) start in
   ∃ k wk,
     failed_attempts (dispatch__wrapped__ two_channels alert) 7 k 1 start wk ∧
     ((r = Returned true ∧ k < Z.to_nat 2 ∧
       ∃ x, dispatch__wrapped__ two_channels alert wk = (true, x)) ∨
      (r = Returned false ∧ k = Z.to_nat 2)) ∧
     sleeps (trace w') = sleeps (trace start) ++ repeat 7%Z k).
Proof.
  assert (H : (0 ≤ 7 ≤ SLEEP_MAX)%Z) by (unfold SLEEP_MAX; lia).
  split; [exact H|].
  split; [intros x; apply dispatch__wrapped___sleeps|].
  apply (with_retry_sleeps_after_every_failure 2 7
           (dispatch__wrapped__ two_channels alert) start H).
  intros x. apply dispatch__wrapped___sleeps.
Defined.

End NotificationsExamples.

(** ** The transaction logger *)

Module HelpersSpec.
Import Py Helpers.

Section Logging.

Context {Any : Type}.
Variable uuid4 : nat → string.
Variable str_value : string → Any.

(** X17. [TransactionLogger.log_queued] hands one INFO record to the
    "transactions" logger and returns. The record carries the
    transaction id (unless it is empty) and, as correlation id, an
    identifier generated for this call, not the one that was set when
    the call was made; afterwards the context is observed as before the
    call, as on leaving any scope. *)
Theorem log_queued_uses_a_new_correlation_id (tid queue_name : string)
    (w : World (Any:=Any)) :
  let '(r, w') := log_queued uuid4 str_value tid queue_name w in
  r = Returned tt ∧
  emitted w'
  = emitted w
    ++ [{| logger_name := "transactions"; levelno := 20;
           message := "Transaction queued: " +:+ tid;
           extra :=
             {| component := "transactions";
                extra_fields :=
                  <["event" := str_value "transaction.queued"]>
                    {[ "queue" := str_value queue_name ]};
                correlation_id :=
                  Context.restored
                    (Some (uuid4 (Context.uuid_calls (store w))));
                transaction_id := Context.restored (Some tid) |} |}] ∧
  Context.get_current_context (store w')
  = Context.restored_context (Context.get_current_context (store w)).
Proof.
  unfold log_queued.
  pose proof (ContextSpec.enter_ids uuid4
    (Context.new_LoggingContext None (Some tid) None true ∅) (store w)) as He.
  pose proof (ContextSpec.enter_snapshot uuid4
    (Context.new_LoggingContext None (Some tid) None true ∅) (store w)) as Hs.
  destruct (Context.__enter__ uuid4 _ (store w)) as [lc s1].
  cbn [fst snd] in He, Hs. cbv zeta in He.
  destruct He as (Hc & _). destruct Hs as (Pc & Pt & Pu & Px).
  unfold info, _log. cbn [store emitted].
  pose proof (ContextSpec.exit_spec uuid4 lc s1 _ Px) as Hx.
  destruct (Context.__exit__ uuid4 lc s1) as [x s3]. cbn [fst snd] in Hx.
  destruct Hx as (-> & Hc' & Ht' & Hu' & Hx').
  split; [done|]. cbn [store emitted]. split.
  - rewrite Hc. unfold Context.entered_correlation_id, Context.restored. cbn.
    by destruct (uuid4 _), tid.
  - unfold Context.get_current_context, Context.restored_context.
    by rewrite Hc', Ht', Hu', Hx', Pc, Pt, Pu.
Qed.

End Logging.

End HelpersSpec.

(** ** Examples on the transaction logger *)

Module HelpersExamples.
Import Py Helpers.

(** A request that runs under correlation id "req-1" logs a queued
    transaction: the record carries the generated identifier, and
    "req-1" is observed again afterwards. *)
Example log_queued_example :
  let uuid4 := λ _ : nat, "3f2b8c1e-5d4a-4e6f-9a7b-0c1d2e3f4a5b" in
  let w := {| store := snd (Context.set_correlation_id uuid4 (Some "req-1")
                              Context.initial_store);
              emitted := [] |} in
  let '(_, w') := log_queued uuid4 (λ v : string, v) "tx-9" "review" w in
  (correlation_id ∘ extra) <$> emitted w'
  = [Some "3f2b8c1e-5d4a-4e6f-9a7b-0c1d2e3f4a5b"] ∧
  (transaction_id ∘ extra) <$> emitted w' = [Some "tx-9"] ∧
  Context.get_correlation_id (store w') = Some "req-1".
Proof. vm_compute. done. Qed.

End HelpersExamples.
